(** * india-electricians-db: normalisation, identity keys and the upsert

    A shallow embedding of the deduplication core of the repository:

    - [src/src/models.py]            : [Electrician], [get_unique_key]
    - [src/src/scrapers/__init__.py] : [BaseScraper._extract_phone_numbers]
    - [src/scrape_surat_verified.py] : [extract_indian_phone], [is_valid_phone]
    - [src/src/storage.py]           : [ElectricianDB], [from_electrician],
                                       [DataStorage.save_to_database]

    Text.  A Python [str] is modelled as a list of characters whose code
    points lie below 256; [str.isdigit], [str.lower], and the regex classes
    [\d] and [\s] are written out as Python defines them on that range.

    Library calls.  [datetime.fromisoformat], [json.dumps] and the clock
    behind [datetime.utcnow] are not code of the repository; the storage
    development takes them as variables of a section. *)

From Stdlib Require Import List Ascii Bool Arith ZArith Lia Permutation.
From Stdlib Require String.
From Stdlib Require Import PrimFloat.
Import ListNotations String.StringSyntax.

Set Implicit Arguments.

(* ================================================================== *)
(** ** Python text *)

Module PyStr.

Definition str := list ascii.

(** String literals of the source, as character lists. *)
Definition lit (s : String.string) : str := String.list_ascii_of_string s.
Arguments lit s%_string_scope.

Definition code (c : ascii) : nat := nat_of_ascii c.

Definition in_range (lo hi : nat) (c : ascii) : bool :=
  (lo <=? code c) && (code c <=? hi).

(** [c in '0'..'9'] : the regex class [\d] (Unicode category Nd). *)
Definition is_decimal (c : ascii) : bool := in_range 48 57 c.

(** [str.isdigit] on one character: the decimal digits and the
    superscript digits U+00B2, U+00B3, U+00B9. *)
Definition isdigit (c : ascii) : bool :=
  is_decimal c || (code c =? 178) || (code c =? 179) || (code c =? 185).

(** The regex class [\s]: the characters for which [str.isspace] holds. *)
Definition isspace (c : ascii) : bool :=
  in_range 9 13 c || in_range 28 32 c || (code c =? 133) || (code c =? 160).

(** Characters that [str.lower] changes. *)
Definition is_upper (c : ascii) : bool :=
  in_range 65 90 c || (in_range 192 222 c && negb (code c =? 215)).

Definition lower_char (c : ascii) : ascii :=
  if is_upper c then ascii_of_nat (code c + 32) else c.

(** [s.lower()] *)
Definition lower (s : str) : str := map lower_char s.

(** [s[-n:]] for [n > 0] *)
Definition last_n (n : nat) (s : str) : str := skipn (length s - n) s.

(** [str.join] of the empty string over [filter(str.isdigit, s)] *)
Definition digits_of (s : str) : str := filter isdigit s.

(** [re.sub(r'\D', '', s)] *)
Definition strip_non_decimal (s : str) : str := filter is_decimal s.

Definition str_eq_dec : forall a b : str, {a = b} + {a <> b} :=
  list_eq_dec ascii_dec.

Definition str_eqb (a b : str) : bool :=
  if str_eq_dec a b then true else false.

(** [len(set(s))] : the number of distinct characters of [s]. *)
Definition distinct_chars (s : str) : nat := length (nodup ascii_dec s).

(** [c in s] for a character [c] *)
Definition char_in (c : ascii) (s : str) : bool :=
  existsb (fun d => if ascii_dec c d then true else false) s.

(** Two texts that differ only in the case of their letters. *)
Definition case_variant_char (a b : ascii) : Prop :=
  a = b \/ (is_upper a = true /\ b = lower_char a)
        \/ (is_upper b = true /\ a = lower_char b).

Definition case_variant (s t : str) : Prop := Forall2 case_variant_char s t.

End PyStr.
Import PyStr.

(* ================================================================== *)
(** ** src/src/models.py *)

Module Models.

(** [@dataclass class Electrician] *)
Record Electrician := mkElectrician {
  name : str;
  phone : str;
  city : str;
  state : str;
  address : option str;
  pincode : option str;
  business_name : option str;
  email : option str;
  website : option str;
  services : list str;
  experience_years : option Z;
  rating : option float;
  review_count : option Z;
  source : str;
  source_url : option str;
  scraped_at : str;
  verified : bool
}.

(** [Electrician.get_unique_key] *)
Definition get_unique_key (e : Electrician) : str :=
  let phone_normalized := last_n 10 (digits_of (phone e)) in
  phone_normalized ++ lit "_" ++ lower (city e) ++ lit "_" ++ lower (state e).

End Models.
Import Models.

(* ================================================================== *)
(** ** Regular expressions of the scrapers

    The phone patterns are concatenations of single-character classes,
    one of which may be optional.  [match_here] is the backtracking match
    of [re] at one position (an optional character is tried present
    first, then absent); [findall] is [re.findall] for a pattern without
    groups that cannot match the empty string: the text is scanned from
    the left and the scan resumes behind each match. *)

Module Regex.

Inductive atom :=
| One (cls : ascii -> bool)
| Opt (cls : ascii -> bool).

Definition pattern := list atom.

Definition chr (c : ascii) : ascii -> bool :=
  fun d => if ascii_dec c d then true else false.

(** [\d] *)
Definition digit : ascii -> bool := is_decimal.

(** [[6-9]] *)
Definition d69 : ascii -> bool := in_range 54 57.

(** [[\s\-]] *)
Definition sep : ascii -> bool := fun c => isspace c || chr "-" c.

(** [cls{n}] *)
Definition rep (n : nat) (cls : ascii -> bool) : pattern := repeat (One cls) n.

Fixpoint match_here (p : pattern) (s : str) : option (str * str) :=
  match p with
  | [] => Some ([], s)
  | One cls :: p' =>
      match s with
      | c :: s' =>
          if cls c then
            match match_here p' s' with
            | Some (m, r) => Some (c :: m, r)
            | None => None
            end
          else None
      | [] => None
      end
  | Opt cls :: p' =>
      match s with
      | c :: s' =>
          if cls c then
            match match_here p' s' with
            | Some (m, r) => Some (c :: m, r)
            | None => match_here p' s
            end
          else match_here p' s
      | [] => match_here p' s
      end
  end.

(** [skip] counts the characters of the last match still to be passed. *)
Fixpoint findall_from (p : pattern) (skip : nat) (s : str) : list str :=
  match s with
  | [] => []
  | _ :: s' =>
      match skip with
      | S k => findall_from p k s'
      | O =>
          match match_here p s with
          | Some (m, _) => m :: findall_from p (length m - 1) s'
          | None => findall_from p 0 s'
          end
      end
  end.

Definition findall (p : pattern) (s : str) : list str := findall_from p 0 s.

End Regex.
Import Regex.

(* ================================================================== *)
(** ** src/src/scrapers/__init__.py and the phone helpers of the scripts *)

Module Scrapers.

(** [r'\+91[\s\-]?[6-9]\d{9}'] *)
Definition pat_plus91 : pattern :=
  [One (chr "+"); One (chr "9"); One (chr "1"); Opt sep; One d69] ++ rep 9 digit.

(** [r'91[\s\-]?[6-9]\d{9}'] *)
Definition pat_91 : pattern :=
  [One (chr "9"); One (chr "1"); Opt sep; One d69] ++ rep 9 digit.

(** [r'0[6-9]\d{9}'] *)
Definition pat_0 : pattern := [One (chr "0"); One d69] ++ rep 9 digit.

(** [r'[6-9]\d{9}'] *)
Definition pat_plain : pattern := [One d69] ++ rep 9 digit.

(** [r'[6-9]\d{4}[\s\-]?\d{5}'] *)
Definition pat_mid : pattern :=
  [One d69] ++ rep 4 digit ++ [Opt sep] ++ rep 5 digit.

Definition patterns : list pattern :=
  [pat_plus91; pat_91; pat_0; pat_plain; pat_mid].

(** The list [phones] after the first loop. *)
Definition matches (text : str) : list str :=
  flat_map (fun p => findall p text) patterns.

(** The list [normalized] after the second loop. *)
Definition normalize (phones : list str) : list str :=
  flat_map (fun ph =>
              let digits := digits_of ph in
              if 10 <=? length digits then [last_n 10 digits] else [])
           phones.

(** [BaseScraper._extract_phone_numbers].  The result is
    [list(set(normalized))]: its elements are those of [normalized],
    each once; Python leaves their order unspecified. *)
Definition _extract_phone_numbers (text : str) : list str :=
  nodup str_eq_dec (normalize (matches text)).

(** [phone[0] in '6789'] *)
Definition starts_6789 (ph : str) : bool :=
  match ph with
  | c :: _ => char_in c (lit "6789")
  | [] => false
  end.

(** [extract_indian_phone] of scrape_surat_verified.py *)
Definition extract_indian_phone (text : str) : list str :=
  nodup str_eq_dec
    (flat_map (fun m =>
                 let digits := strip_non_decimal m in
                 if 10 <=? length digits then
                   let ph := last_n 10 digits in
                   if starts_6789 ph then [ph] else []
                 else [])
              (matches text)).

(** [is_valid_phone] of scrape_surat_verified.py *)
Definition is_valid_phone (ph : str) : bool :=
  if negb (length ph =? 10) then false
  else if negb (starts_6789 ph) then false
  else if distinct_chars ph <? 4 then false
  else true.

(** [extract_phone] of quick_verified_scrape.py *)
Definition extract_phone (text : str) : list str :=
  nodup str_eq_dec
    (flat_map (fun m =>
                 let digits := last_n 10 (strip_non_decimal m) in
                 if (length digits =? 10) && starts_6789 digits
                    && (4 <=? distinct_chars digits)
                 then [digits] else [])
              (flat_map (fun p => findall p text) [pat_plain; pat_mid])).

End Scrapers.
Import Scrapers.


(* ================================================================== *)
(** ** How a mobile number is written in a text

    The ways of writing a number that the patterns are meant for: an
    optional country code [+91] or [91], itself optionally followed by a
    space or dash, or a leading [0]; and an optional space or dash after
    the fifth digit. *)

Module Variants.

Inductive prefix :=
| NoPrefix
| CountryCode (plus : bool) (s : option ascii)
| LeadingZero.

Definition opt_char (o : option ascii) : str :=
  match o with Some c => [c] | None => [] end.

Definition prefix_text (p : prefix) : str :=
  match p with
  | NoPrefix => []
  | CountryCode plus s => (if plus then lit "+" else []) ++ lit "91" ++ opt_char s
  | LeadingZero => lit "0"
  end.

(** The number [n] written with prefix [p] and middle separator [mid]. *)
Definition written (p : prefix) (mid : option ascii) (n : str) : str :=
  prefix_text p ++ firstn 5 n ++ opt_char mid ++ skipn 5 n.

(** A separator, where there is one, is a space or a dash. *)
Definition sep_ok (o : option ascii) : bool :=
  match o with Some c => sep c | None => true end.

Definition prefix_ok (p : prefix) : bool :=
  match p with CountryCode _ s => sep_ok s | _ => true end.

(** Ten decimal digits, the first of them 6, 7, 8 or 9. *)
Definition valid_mobile (n : str) : bool :=
  (length n =? 10)
  && match n with c :: _ => d69 c | [] => false end
  && forallb digit n.

(** No decimal digit occurs in [s]. *)
Definition digit_free (s : str) : bool :=
  forallb (fun c => negb (is_decimal c)) s.

(** No digit run touches what follows [pre]: [pre] ends neither in a
    decimal digit nor in a decimal digit followed by one separator. *)
Definition clear_before (pre : str) : bool :=
  match rev pre with
  | [] => true
  | c :: before =>
      if is_decimal c then false
      else if sep c then
        match before with
        | d :: _ => negb (is_decimal d)
        | [] => true
        end
      else true
  end.

End Variants.
Import Variants.

(* ================================================================== *)
(** ** src/src/storage.py *)

Module Storage.

(** A naive [datetime]. *)
Record datetime := mkDatetime {
  year : Z; month : Z; day : Z;
  hour : Z; minute : Z; second : Z; microsecond : Z
}.

(** [class ElectricianDB(Base)]: one row of the table [electricians].
    Columns declared [nullable=False] carry a value, the others may be
    NULL. *)
Record ElectricianDB := mkRow {
  id : Z;
  name : str;
  phone : str;
  city : str;
  state : str;
  address : option str;
  pincode : option str;
  business_name : option str;
  email : option str;
  website : option str;
  services : option str;
  experience_years : option Z;
  rating : option float;
  review_count : option Z;
  source : str;
  source_url : option str;
  verified : bool;
  scraped_at : datetime;
  unique_key : option str;
  category : option str;
  service_description : option str;
  smart_meter_score : option Z;
  smart_meter_notes : option str;
  verified_by : option str;
  verified_at : option datetime
}.

(** [setattr(row, column, v)] for the columns the upsert writes. *)
Definition set_id (v : Z) (r : ElectricianDB) : ElectricianDB :=
  mkRow v (name r) (phone r) (city r) (state r) (address r)
    (pincode r) (business_name r) (email r) (website r) (services r)
    (experience_years r) (rating r) (review_count r) (source r)
    (source_url r) (verified r) (scraped_at r) (unique_key r) (category r)
    (service_description r) (smart_meter_score r) (smart_meter_notes r)
    (verified_by r) (verified_at r).

Definition set_name (v : str) (r : ElectricianDB) : ElectricianDB :=
  mkRow (id r) v (phone r) (city r) (state r) (address r)
    (pincode r) (business_name r) (email r) (website r) (services r)
    (experience_years r) (rating r) (review_count r) (source r)
    (source_url r) (verified r) (scraped_at r) (unique_key r) (category r)
    (service_description r) (smart_meter_score r) (smart_meter_notes r)
    (verified_by r) (verified_at r).

Definition set_address (v : option str) (r : ElectricianDB) : ElectricianDB :=
  mkRow (id r) (name r) (phone r) (city r) (state r) v
    (pincode r) (business_name r) (email r) (website r) (services r)
    (experience_years r) (rating r) (review_count r) (source r)
    (source_url r) (verified r) (scraped_at r) (unique_key r) (category r)
    (service_description r) (smart_meter_score r) (smart_meter_notes r)
    (verified_by r) (verified_at r).

Definition set_rating (v : option float) (r : ElectricianDB) : ElectricianDB :=
  mkRow (id r) (name r) (phone r) (city r) (state r) (address r)
    (pincode r) (business_name r) (email r) (website r) (services r)
    (experience_years r) v (review_count r) (source r)
    (source_url r) (verified r) (scraped_at r) (unique_key r) (category r)
    (service_description r) (smart_meter_score r) (smart_meter_notes r)
    (verified_by r) (verified_at r).

Definition set_review_count (v : option Z) (r : ElectricianDB) : ElectricianDB :=
  mkRow (id r) (name r) (phone r) (city r) (state r) (address r)
    (pincode r) (business_name r) (email r) (website r) (services r)
    (experience_years r) (rating r) v (source r)
    (source_url r) (verified r) (scraped_at r) (unique_key r) (category r)
    (service_description r) (smart_meter_score r) (smart_meter_notes r)
    (verified_by r) (verified_at r).

Definition set_source_url (v : option str) (r : ElectricianDB) : ElectricianDB :=
  mkRow (id r) (name r) (phone r) (city r) (state r) (address r)
    (pincode r) (business_name r) (email r) (website r) (services r)
    (experience_years r) (rating r) (review_count r) (source r)
    v (verified r) (scraped_at r) (unique_key r) (category r)
    (service_description r) (smart_meter_score r) (smart_meter_notes r)
    (verified_by r) (verified_at r).

Definition set_scraped_at (v : datetime) (r : ElectricianDB) : ElectricianDB :=
  mkRow (id r) (name r) (phone r) (city r) (state r) (address r)
    (pincode r) (business_name r) (email r) (website r) (services r)
    (experience_years r) (rating r) (review_count r) (source r)
    (source_url r) (verified r) v (unique_key r) (category r)
    (service_description r) (smart_meter_score r) (smart_meter_notes r)
    (verified_by r) (verified_at r).

Definition set_smart_meter_score (v : option Z) (r : ElectricianDB) : ElectricianDB :=
  mkRow (id r) (name r) (phone r) (city r) (state r) (address r)
    (pincode r) (business_name r) (email r) (website r) (services r)
    (experience_years r) (rating r) (review_count r) (source r)
    (source_url r) (verified r) (scraped_at r) (unique_key r) (category r)
    (service_description r) v (smart_meter_notes r)
    (verified_by r) (verified_at r).

(** Python truth values of the column values tested by [if getattr(...)]. *)
Definition truthy_str (s : str) : bool :=
  match s with [] => false | _ => true end.

Definition truthy_opt_str (s : option str) : bool :=
  match s with Some s' => truthy_str s' | None => false end.

Definition truthy_opt_float (x : option float) : bool :=
  match x with Some f => negb (PrimFloat.eqb f 0%float) | None => false end.

Definition truthy_opt_int (x : option Z) : bool :=
  match x with Some n => negb (n =? 0)%Z | None => false end.

Definition table := list ElectricianDB.

(** The database file and the session opened on it: [committed] is what
    a new session would read, [txn] the rows as seen inside the open
    transaction, [clock] the number of clock readings made so far. *)
Record St := mkSt {
  committed : table;
  txn : table;
  clock : nat
}.

Inductive exn :=
| ValueError (msg : str).

Inductive result (A : Type) :=
| Ok (a : A)
| Raise (e : exn).
Arguments Ok {A} a.
Arguments Raise {A} e.

(** Computations that read and write [St] and may raise. *)
Definition M (A : Type) : Type := St -> result A * St.

Definition ret {A} (a : A) : M A := fun s => (Ok a, s).

Definition bind {A B} (m : M A) (k : A -> M B) : M B :=
  fun s =>
    match m s with
    | (Ok a, s') => k a s'
    | (Raise e, s') => (Raise e, s')
    end.

Definition raise {A} (e : exn) : M A := fun s => (Raise e, s).

(** [try: m  except Exception as e: h e] *)
Definition try_except {A} (m : M A) (h : exn -> M A) : M A :=
  fun s =>
    match m s with
    | (Ok a, s') => (Ok a, s')
    | (Raise e, s') => h e s'
    end.

(** [try: m  finally: f] *)
Definition try_finally {A} (m : M A) (f : M unit) : M A :=
  fun s =>
    match m s with
    | (r, s') =>
        match f s' with
        | (Ok _, s'') => (r, s'')
        | (Raise e, s'') => (Raise e, s'')
        end
    end.

Definition get : M St := fun s => (Ok s, s).
Definition put (s : St) : M unit := fun _ => (Ok tt, s).

Declare Scope py_scope.
Delimit Scope py_scope with py.
Notation "x <- m ;; k" := (bind m (fun x => k))
  (at level 61, m at next level, right associativity) : py_scope.
Notation "m ;; k" := (bind m (fun _ => k))
  (at level 61, right associativity) : py_scope.
Local Open Scope py_scope.

(** [self.Session()] *)
Definition session_begin : M unit :=
  s <- get ;; put (mkSt (committed s) (committed s) (clock s)).

(** [session.commit()] *)
Definition session_commit : M unit :=
  s <- get ;; put (mkSt (txn s) (txn s) (clock s)).

(** [session.rollback()] *)
Definition session_rollback : M unit :=
  s <- get ;; put (mkSt (committed s) (committed s) (clock s)).

(** [session.close()] releases the transaction, if one is still open. *)
Definition session_close : M unit := session_rollback.

Definition key_is (k : str) (r : ElectricianDB) : bool :=
  match unique_key r with
  | Some k' => str_eqb k' k
  | None => false
  end.

(** [session.query(ElectricianDB).filter_by(unique_key=k).first()] *)
Definition query_first (k : str) : M (option ElectricianDB) :=
  s <- get ;; ret (find (key_is k) (txn s)).

(** Writing back the attributes of the object returned by [query_first]. *)
Fixpoint replace_first (k : str) (r' : ElectricianDB) (t : table) : table :=
  match t with
  | [] => []
  | r :: t' => if key_is k r then r' :: t' else r :: replace_first k r' t'
  end.

Definition session_write (k : str) (r' : ElectricianDB) : M unit :=
  s <- get ;; put (mkSt (committed s) (replace_first k r' (txn s)) (clock s)).

(** Some row of [t] has the key [k]. *)
Definition key_in (k : str) (t : table) : bool := existsb (key_is k) t.

(** The distinct identity keys of a batch that the table does not hold. *)
Definition new_keys (t : table) (electricians : list Electrician) : list str :=
  nodup str_eq_dec
    (filter (fun k => negb (key_in k t)) (map get_unique_key electricians)).

(** [r'] is [r] but for its [scraped_at]. *)
Definition same_but_scraped_at (r r' : ElectricianDB) : Prop :=
  r' = set_scraped_at (scraped_at r') r.

(** Every record of [t] is still in [t'] under its key, with its
    verification flag and metadata. *)
Definition keeps_verification (t t' : table) : Prop :=
  forall k r,
    find (key_is k) t = Some r ->
    exists r',
      find (key_is k) t' = Some r' /\
      verified r' = verified r /\
      verified_by r' = verified_by r /\
      verified_at r' = verified_at r.

(** The rowid SQLite gives to the next inserted row. *)
Definition next_id (t : table) : Z :=
  (1 + fold_right Z.max 0 (map id t))%Z.

(** Column defaults applied by the INSERT. *)
Definition with_defaults (r : ElectricianDB) : ElectricianDB :=
  match smart_meter_score r with
  | Some _ => r
  | None => set_smart_meter_score (Some 0%Z) r
  end.

(** [session.add(r)] *)
Definition session_add (r : ElectricianDB) : M unit :=
  s <- get ;;
  put (mkSt (committed s)
            (txn s ++ [set_id (next_id (txn s)) (with_defaults r)])
            (clock s)).

Section WithLibrary.

(** [datetime.fromisoformat]; [None] stands for its [ValueError]. *)
Variable fromisoformat : str -> option datetime.
(** [json.dumps] on a list of strings. *)
Variable json_dumps : list str -> str.
(** What the [n]-th reading of the clock returns. *)
Variable clock_reading : nat -> datetime.

(** [datetime.utcnow()] *)
Definition utcnow : M datetime :=
  s <- get ;;
  put (mkSt (committed s) (txn s) (S (clock s))) ;;
  ret (clock_reading (clock s)).

(** The object [cls(name=..., ..., unique_key=...)] of
    [from_electrician], once its [scraped_at] argument has the value
    [ts].  It has no [id] before it is inserted (written 0 here), and
    the columns the call does not mention are unset. *)
Definition new_row (e : Electrician) (ts : datetime) : ElectricianDB :=
  mkRow 0 (Models.name e) (Models.phone e) (Models.city e)
    (Models.state e) (Models.address e) (Models.pincode e)
    (Models.business_name e) (Models.email e) (Models.website e)
    (match Models.services e with
     | [] => None
     | l => Some (json_dumps l)
     end)
    (Models.experience_years e) (Models.rating e)
    (Models.review_count e) (Models.source e) (Models.source_url e)
    (Models.verified e) ts (Some (get_unique_key e))
    None None None None None None.

(** [ElectricianDB.from_electrician] *)
Definition from_electrician (e : Electrician) : M ElectricianDB :=
  ts <- match Models.scraped_at e with
        | [] => utcnow
        | iso =>
            match fromisoformat iso with
            | Some d => ret d
            | None => raise (ValueError iso)
            end
        end ;;
  ret (new_row e ts).

(** The candidate's [scraped_at] is empty or an ISO timestamp, as the
    dataclass writes it. *)
Definition readable (e : Electrician) : bool :=
  match Models.scraped_at e with
  | [] => true
  | iso => match fromisoformat iso with Some _ => true | None => false end
  end.

(** The value [from_electrician] computes for [scraped_at] when the
    clock has been read [c] times, with the number of readings
    afterwards; [None] when [fromisoformat] raises. *)
Definition timestamp (e : Electrician) (c : nat) : option (datetime * nat) :=
  match Models.scraped_at e with
  | [] => Some (clock_reading c, S c)
  | iso =>
      match fromisoformat iso with
      | Some d => Some (d, c)
      | None => None
      end
  end.

(** The loop over [["name", "address", "rating", "review_count",
    "source_url"]]. *)
Definition merge_fields (existing db_record : ElectricianDB) : ElectricianDB :=
  let r := existing in
  let r := if truthy_str (name db_record)
           then set_name (name db_record) r else r in
  let r := if truthy_opt_str (address db_record)
           then set_address (address db_record) r else r in
  let r := if truthy_opt_float (rating db_record)
           then set_rating (rating db_record) r else r in
  let r := if truthy_opt_int (review_count db_record)
           then set_review_count (review_count db_record) r else r in
  let r := if truthy_opt_str (source_url db_record)
           then set_source_url (source_url db_record) r else r in
  r.

(** One turn of [for electrician in electricians]. *)
Definition upsert (update_existing : bool) (electrician : Electrician)
                  (saved_count : Z) : M Z :=
  let unique_key := get_unique_key electrician in
  existing <- query_first unique_key ;;
  match existing with
  | Some existing =>
      if update_existing then
        db_record <- from_electrician electrician ;;
        let existing := merge_fields existing db_record in
        now <- utcnow ;;
        session_write unique_key (set_scraped_at now existing) ;;
        ret saved_count
      else ret saved_count
  | None =>
      db_record <- from_electrician electrician ;;
      session_add db_record ;;
      ret (saved_count + 1)%Z
  end.

(** What one turn of the loop does, case by case. *)
Inductive upsert_step (flag : bool) (e : Electrician) (n : Z) (s : St)
  : result Z * St -> Prop :=
| step_insert ts ck' :
    find (key_is (get_unique_key e)) (txn s) = None ->
    timestamp e (clock s) = Some (ts, ck') ->
    upsert_step flag e n s
      (Ok (n + 1)%Z,
       mkSt (committed s)
            (txn s ++ [set_id (next_id (txn s)) (with_defaults (new_row e ts))])
            ck')
| step_update r ts ck' :
    flag = true ->
    find (key_is (get_unique_key e)) (txn s) = Some r ->
    timestamp e (clock s) = Some (ts, ck') ->
    upsert_step flag e n s
      (Ok n,
       mkSt (committed s)
            (replace_first (get_unique_key e)
               (set_scraped_at (clock_reading ck')
                  (merge_fields r (new_row e ts))) (txn s))
            (S ck'))
| step_skip r :
    flag = false ->
    find (key_is (get_unique_key e)) (txn s) = Some r ->
    upsert_step flag e n s (Ok n, s)
| step_raise :
    timestamp e (clock s) = None ->
    find (key_is (get_unique_key e)) (txn s) = None \/ flag = true ->
    upsert_step flag e n s (Raise (ValueError (Models.scraped_at e)), s).

Fixpoint process (update_existing : bool) (electricians : list Electrician)
                 (saved_count : Z) : M Z :=
  match electricians with
  | [] => ret saved_count
  | e :: rest =>
      saved_count <- upsert update_existing e saved_count ;;
      process update_existing rest saved_count
  end.

(** [DataStorage.save_to_database] *)
Definition save_to_database (electricians : list Electrician)
                            (update_existing : bool) : M Z :=
  session_begin ;;
  try_finally
    (try_except
       (saved_count <- process update_existing electricians 0%Z ;;
        session_commit ;;
        ret saved_count)
       (fun e => session_rollback ;; raise e))
    session_close.

End WithLibrary.

End Storage.

(* ================================================================== *)
(** ** Library functions, for running the storage code

    Executable stand-ins for the three library calls the storage section
    is parameterised by.  [fromisoformat] reads the texts that
    [datetime.isoformat()] writes ([YYYY-MM-DD], optionally followed by a
    separator and [HH:MM:SS], optionally followed by [.ffffff]) and fails
    on everything else; [json_dumps] writes a list of strings the way
    [json.dumps] does with its default arguments. *)

Module PyLib.
Import Storage.

Definition digit_val (c : ascii) : Z := Z.of_nat (code c) - 48.

(** The number written by a non-empty run of decimal digits. *)
Definition read_int (s : str) : option Z :=
  match s with
  | [] => None
  | _ => if forallb is_decimal s
         then Some (fold_left (fun acc c => 10 * acc + digit_val c) s 0)%Z
         else None
  end.

Definition is_leap (y : Z) : bool :=
  ((y mod 4 =? 0) && (negb (y mod 100 =? 0) || (y mod 400 =? 0)))%Z.

Definition days_in_month (y m : Z) : Z :=
  (if m =? 2 then (if is_leap y then 29 else 28)
   else if (m =? 4) || (m =? 6) || (m =? 9) || (m =? 11) then 30
   else 31)%Z.

Definition between (lo x hi : Z) : bool := ((lo <=? x) && (x <=? hi))%Z.

(** [YYYY-MM-DD] *)
Definition read_date (s : str) : option (Z * Z * Z) :=
  match s with
  | [y1; y2; y3; y4; d1; m1; m2; d2; a1; a2] =>
      if chr "-" d1 && chr "-" d2 then
        match read_int [y1; y2; y3; y4], read_int [m1; m2], read_int [a1; a2] with
        | Some y, Some m, Some d =>
            if between 1 y 9999 && between 1 m 12
               && between 1 d (days_in_month y m)
            then Some (y, m, d) else None
        | _, _, _ => None
        end
      else None
  | _ => None
  end.

(** [HH:MM:SS] or [HH:MM:SS.ffffff] *)
Definition read_time (s : str) : option (Z * Z * Z * Z) :=
  let hms h1 h2 c1 m1 m2 c2 s1 s2 us :=
    if chr ":" c1 && chr ":" c2 then
      match read_int [h1; h2], read_int [m1; m2], read_int [s1; s2] with
      | Some h, Some m, Some sec =>
          if between 0 h 23 && between 0 m 59 && between 0 sec 59
          then Some (h, m, sec, us) else None
      | _, _, _ => None
      end
    else None in
  match s with
  | [h1; h2; c1; m1; m2; c2; s1; s2] => hms h1 h2 c1 m1 m2 c2 s1 s2 0%Z
  | [h1; h2; c1; m1; m2; c2; s1; s2; dot; f1; f2; f3; f4; f5; f6] =>
      if chr "." dot then
        match read_int [f1; f2; f3; f4; f5; f6] with
        | Some us => hms h1 h2 c1 m1 m2 c2 s1 s2 us
        | None => None
        end
      else None
  | _ => None
  end.

Definition fromisoformat (s : str) : option datetime :=
  match read_date (firstn 10 s) with
  | Some (y, m, d) =>
      match skipn 10 s with
      | [] => Some (mkDatetime y m d 0 0 0 0)
      | _ :: t =>
          match read_time t with
          | Some (h, mi, sec, us) => Some (mkDatetime y m d h mi sec us)
          | None => None
          end
      end
  | None => None
  end.

Definition hex_digit (n : nat) : ascii :=
  nth n (lit "0123456789abcdef") "0"%char.

(** The double quote character. *)
Definition dquote : ascii := ascii_of_nat 34.

(** One character inside a JSON string, [ensure_ascii=True]. *)
Definition json_char (c : ascii) : str :=
  if code c =? 34 then lit "\" ++ [dquote]
  else if chr "\" c then lit "\\"
  else if code c =? 10 then lit "\n"
  else if code c =? 13 then lit "\r"
  else if code c =? 9 then lit "\t"
  else if code c =? 8 then lit "\b"
  else if code c =? 12 then lit "\f"
  else if (code c <? 32) || (127 <? code c)
       then lit "\u00" ++ [hex_digit (code c / 16); hex_digit (code c mod 16)]
  else [c].

Definition json_string (s : str) : str :=
  [dquote] ++ flat_map json_char s ++ [dquote].

Fixpoint join (sepr : str) (l : list str) : str :=
  match l with
  | [] => []
  | [x] => x
  | x :: rest => x ++ sepr ++ join sepr rest
  end.

Definition json_dumps (l : list str) : str :=
  lit "[" ++ join (lit ", ") (map json_string l) ++ lit "]".

(** A clock that starts on 2026-01-01 and advances one second a reading. *)
Definition clock_reading (n : nat) : datetime :=
  let t := Z.of_nat n in
  mkDatetime 2026 1 1 ((t / 3600) mod 24) ((t / 60) mod 60) (t mod 60) 0.

End PyLib.



(* ================================================================== *)
(** ** Sample data

    Candidates and databases on which the storage code is run below. *)

Module Scenario.
Import Storage.

Definition candidate (name phone city state scraped_at : str)
                     (verified : bool) : Electrician :=
  mkElectrician name phone city state None None None None None []
                None None None (lit "justdial") None scraped_at verified.

(** Scenario A of the specification. *)
Definition patel : Electrician :=
  candidate (lit "Patel Electric") (lit "+91 98250 12345")
            (lit "Surat") (lit "Gujarat") (lit "2024-03-09T10:11:12") false.

(** The same business under another name, with an address and a
    rating of zero, not verified. *)
Definition patel_renamed : Electrician :=
  mkElectrician (lit "Patel Electricals") (lit "9825012345")
                (lit "SURAT") (lit "gujarat")
                (Some (lit "Ring Road")) None None None None [lit "wiring"]
                None (Some 0%float) None (lit "sulekha") None [] false.

Definition shah : Electrician :=
  candidate (lit "Shah Power") (lit "09876543210")
            (lit "Surat") (lit "Gujarat") [] false.

Definition mehta : Electrician :=
  candidate (lit "Mehta Wiring") (lit "7012345678")
            (lit "Bhopal") (lit "Madhya Pradesh") (lit "2025-12-31") false.

(** A candidate whose phone holds five digits. *)
Definition short_phone : Electrician :=
  candidate (lit "No Phone") (lit "12345")
            (lit "Surat") (lit "Gujarat") [] false.

(** Scenario C of the specification. *)
Definition nines : Electrician :=
  candidate (lit "All Nines") (lit "9999999999")
            (lit "Surat") (lit "Gujarat") [] false.

(** A candidate whose timestamp is no ISO text. *)
Definition undated : Electrician :=
  candidate (lit "Undated") (lit "9123456789")
            (lit "Surat") (lit "Gujarat") (lit "yesterday") false.

Definition verified_on : datetime := mkDatetime 2025 6 1 9 30 0 0.

(** A verified record of the database, rated 4.5. *)
Definition patel_row : ElectricianDB :=
  mkRow 1 (lit "Patel Electric") (lit "9825012345") (lit "Surat")
        (lit "Gujarat") None (Some (lit "395007")) None None None None None
        (Some 4.5%float) (Some 12%Z) (lit "justdial") None true
        (mkDatetime 2024 3 9 10 11 12 0)
        (Some (lit "9825012345_surat_gujarat"))
        (Some (lit "Electrician")) None (Some 40%Z) None
        (Some (lit "User")) (Some verified_on).

Definition shah_row : ElectricianDB :=
  mkRow 2 (lit "Shah Power") (lit "9876543210") (lit "Surat")
        (lit "Gujarat") None None None None None None None
        None None (lit "justdial") None false
        (mkDatetime 2024 3 9 10 11 12 0)
        (Some (lit "9876543210_surat_gujarat"))
        None None (Some 0%Z) None None None.

Definition database (t : table) : St := mkSt t t 0.

Definition save_to_database :=
  Storage.save_to_database PyLib.fromisoformat PyLib.json_dumps
                           PyLib.clock_reading.

Definition process :=
  Storage.process PyLib.fromisoformat PyLib.json_dumps PyLib.clock_reading.

Definition readable := Storage.readable PyLib.fromisoformat.

End Scenario.

(* ================================================================== *)
(** ** What a pattern accepts

    [accepts p m] holds when the text [m] is, character by character, a
    word of the pattern [p]. *)

Module Accepts.

Fixpoint accepts (p : pattern) (m : str) : Prop :=
  match p with
  | [] => m = []
  | One cls :: p' =>
      exists c m', m = c :: m' /\ cls c = true /\ accepts p' m'
  | Opt cls :: p' =>
      (exists c m', m = c :: m' /\ cls c = true /\ accepts p' m')
      \/ accepts p' m
  end.

(** The number of decimal digits of a text. *)
Definition decimal_count (s : str) : nat := length (strip_non_decimal s).

End Accepts.
Import Accepts.

(* ================================================================== *)
(** ** src/src/storage.py, continued: constraints, reading back *)

Module Table.
Import Storage.

(** The non-NULL values of the column [unique_key], in row order. *)
Definition keys_of (t : table) : list str :=
  flat_map (fun r => match unique_key r with Some k => [k] | None => [] end) t.

(** [unique=True] on [unique_key]: no two rows share a non-NULL key. *)
Definition unique_keys (t : table) : Prop := NoDup (keys_of t).

(** [primary_key=True] on [id]: no two rows share an id. *)
Definition unique_ids (t : table) : Prop := NoDup (map id t).

(** The columns of a row that the upsert has no assignment for. *)
Definition frozen (r : ElectricianDB) :=
  (id r, phone r, city r, state r, pincode r, business_name r, email r,
   website r, services r, experience_years r, source r, verified r,
   unique_key r, category r, service_description r, smart_meter_score r,
   smart_meter_notes r, verified_by r, verified_at r).

(** [Electrician.__eq__] between two candidates. *)
Definition electrician_eq (a b : Electrician) : bool :=
  str_eqb (get_unique_key a) (get_unique_key b).

Section Reading.

(** [json.loads] on the text of a list of strings. *)
Variable json_loads : str -> list str.
(** [datetime.isoformat] *)
Variable isoformat : datetime -> str.

(** [ElectricianDB.to_electrician].  The columns [scraped_at], declared
    with a default, always hold a value in a stored row. *)
Definition to_electrician (r : ElectricianDB) : Electrician :=
  mkElectrician (name r) (phone r) (city r) (state r) (address r)
    (pincode r) (business_name r) (email r) (website r)
    (if truthy_opt_str (services r)
     then match services r with Some s => json_loads s | None => [] end
     else [])
    (experience_years r) (rating r) (review_count r) (source r)
    (source_url r) (isoformat (scraped_at r)) (verified r).

(** [DataStorage.load_from_database()] called without filters and
    without limit: every row, as a candidate. *)
Definition load_from_database (s : St) : list Electrician :=
  map to_electrician (committed s).

(** The stored key of a row is the key of the candidate the row reads
    back as. *)
Definition key_consistent (r : ElectricianDB) : Prop :=
  unique_key r = Some (get_unique_key (to_electrician r)).

End Reading.

End Table.
Import Table.

(* ================================================================== *)
(** ** Library functions for reading back

    Executable stand-ins for [json.loads], on the texts [json.dumps]
    writes for a list of strings, and for [datetime.isoformat]. *)

Module PyRead.
Import Storage.

Definition hex_val (c : ascii) : option nat :=
  if is_decimal c then Some (code c - 48)
  else if in_range 97 102 c then Some (code c - 87)
  else if in_range 65 70 c then Some (code c - 55)
  else None.

(** The character a JSON escape stands for; [s] is the text behind the
    backslash.  The result pairs the character with the rest. *)
Definition unescape (s : str) : option (ascii * str) :=
  match s with
  | c :: rest =>
      if chr "n" c then Some (ascii_of_nat 10, rest)
      else if chr "r" c then Some (ascii_of_nat 13, rest)
      else if chr "t" c then Some (ascii_of_nat 9, rest)
      else if chr "b" c then Some (ascii_of_nat 8, rest)
      else if chr "f" c then Some (ascii_of_nat 12, rest)
      else if chr "u" c then
        match rest with
        | h1 :: h2 :: h3 :: h4 :: rest' =>
            match hex_val h1, hex_val h2, hex_val h3, hex_val h4 with
            | Some 0, Some 0, Some a, Some b =>
                Some (ascii_of_nat (16 * a + b), rest')
            | _, _, _, _ => None
            end
        | _ => None
        end
      else Some (c, rest)
  | [] => None
  end.

(** Reads the items of a list of strings.  [cur] is the string being
    read, if one is open; [skip] counts the characters of an escape still
    to be passed; [acc] holds the strings read, last first. *)
Fixpoint read_items (s : str) (cur : option str) (skip : nat)
                    (acc : list str) : list str :=
  match s with
  | [] => rev acc
  | c :: rest =>
      match skip with
      | S k => read_items rest cur k acc
      | O =>
          match cur with
          | None =>
              if code c =? 34 then read_items rest (Some []) 0 acc
              else read_items rest None 0 acc
          | Some w =>
              if code c =? 34 then read_items rest None 0 (rev w :: acc)
              else if chr "\" c then
                match unescape rest with
                | Some (d, rest') =>
                    read_items rest (Some (d :: w))
                               (length rest - length rest') acc
                | None => read_items rest (Some w) 0 acc
                end
              else read_items rest (Some (c :: w)) 0 acc
          end
      end
  end.

Definition json_loads (s : str) : list str := read_items s None 0 [].

Definition digit_char (n : Z) : ascii := ascii_of_nat (48 + Z.to_nat (n mod 10)).

(** [n] in decimal, on [w] places, with leading zeros. *)
Fixpoint padded (w : nat) (n : Z) : str :=
  match w with
  | O => []
  | S w' => padded w' (n / 10) ++ [digit_char n]
  end.

Definition isoformat (d : datetime) : str :=
  padded 4 (year d) ++ lit "-" ++ padded 2 (month d) ++ lit "-"
  ++ padded 2 (day d) ++ lit "T" ++ padded 2 (hour d) ++ lit ":"
  ++ padded 2 (minute d) ++ lit ":" ++ padded 2 (second d)
  ++ (if (microsecond d =? 0)%Z then []
      else lit "." ++ padded 6 (microsecond d)).

End PyRead.

(* ================================================================== *)
(** ** Python dictionaries, and the deduplication of the callers

    A [dict] keeps its keys in the order of their first insertion; an
    assignment to a key it has replaces the value in place. *)

Module PyDict.

Section Dict.

Variable A : Type.

Definition dict := list (str * A).

(** [d[k] = v] *)
Fixpoint dict_set (k : str) (v : A) (d : dict) : dict :=
  match d with
  | [] => [(k, v)]
  | (k', v') :: d' =>
      if str_eqb k' k then (k', v) :: d' else (k', v') :: dict_set k v d'
  end.

(** [d.get(k)] *)
Fixpoint dict_get (k : str) (d : dict) : option A :=
  match d with
  | [] => None
  | (k', v) :: d' => if str_eqb k' k then Some v else dict_get k d'
  end.

(** [d.values()] *)
Definition dict_values (d : dict) : list A := map snd d.

Variable key : A -> str.

(** [{key(x): x for x in l}] *)
Definition dict_by (l : list A) : dict :=
  fold_left (fun d x => dict_set (key x) x d) l [].

(** [list({key(x): x for x in l}.values())] *)
Definition unique_by (l : list A) : list A := dict_values (dict_by l).

(** The last element of [l] with the key [k]. *)
Definition last_with (k : str) (l : list A) : option A :=
  find (fun x => str_eqb (key x) k) (rev l).

End Dict.

(** [unique = list({e.get_unique_key(): e for e in all_electricians}.values())]
    of scrape_with_proxy.py, scrape_surat.py and quick_scrape.py. *)
Definition unique (all_electricians : list Electrician) : list Electrician :=
  unique_by get_unique_key all_electricians.

(** [unique_data] of [DataStorage.save_to_json], the dictionaries of the
    file and of [to_dict] being written as the records they hold. *)
Definition unique_data (existing_data new_data : list Electrician)
  : list Electrician :=
  let all_data := existing_data ++ new_data in
  unique_by Models.phone all_data.

End PyDict.
Import PyDict.

(* ================================================================== *)
(** ** More sample data *)

Module Scenario2.
Import Storage Scenario.

(** A candidate with services and a timestamp with microseconds. *)
Definition gupta : Electrician :=
  mkElectrician (lit "Gupta Meter Works") (lit "8899776655")
                (lit "Bhopal") (lit "Madhya Pradesh")
                (Some (lit "MP Nagar")) (Some (lit "462011")) None None None
                [lit "wiring"; lit "meter/fitting"; lit "fan, light"]
                (Some 7%Z) (Some 4.25%float) (Some 31%Z) (lit "sulekha")
                (Some (lit "https://example.org/gupta"))
                (lit "2024-03-09T10:11:12.000345") true.

Definition gupta_time : datetime := mkDatetime 2024 3 9 10 11 12 345.

(** Two more sightings of Patel Electric, under the same phone. *)
Definition patel_again : Electrician :=
  candidate (lit "Patel Electric Co") (lit "+91 98250 12345")
            (lit "surat") (lit "Gujarat") (lit "2024-04-01T08:00:00") false.

End Scenario2.

(* ================================================================== *)
(** * Properties *)

(** ** Text *)

Lemma lower_char_idempotent (c : ascii) :
  lower_char (lower_char c) = lower_char c.
Proof.
  destruct c as [[] [] [] [] [] [] [] []]; vm_compute; reflexivity.
Qed.

Lemma case_variant_char_lower (a b : ascii) :
  case_variant_char a b -> lower_char a = lower_char b.
Proof.
  intros [-> | [[_ ->] | [_ ->]]];
    now rewrite ?lower_char_idempotent.
Qed.

Lemma case_variant_lower (s t : str) :
  case_variant s t -> lower s = lower t.
Proof.
  induction 1 as [| a b s t Hab _ IH]; simpl.
  - reflexivity.
  - now rewrite (case_variant_char_lower Hab), IH.
Qed.

Lemma case_variant_refl (s : str) : case_variant s s.
Proof.
  induction s; constructor; [now left | assumption].
Qed.

(** A text and its lower-cased form differ only in letter case. *)
Lemma case_variant_lower_self (s : str) : case_variant s (lower s).
Proof.
  induction s as [| c s IH]; constructor; [| exact IH].
  unfold case_variant_char.
  destruct (is_upper c) eqn:E.
  - right; left; split; reflexivity.
  - left. unfold lower_char. now rewrite E.
Qed.

(** ** Identity keys *)

(** C9.  [get_unique_key] is a function of the phone, the city and the
    state alone: candidates that agree on the three have the same key,
    character for character, whatever their other fields; and the key
    does not change when the letters of the city and of the state change
    case. *)
Theorem get_unique_key_deterministic_case_insensitive :
  (forall e1 e2 : Electrician,
      Models.phone e1 = Models.phone e2 ->
      Models.city e1 = Models.city e2 ->
      Models.state e1 = Models.state e2 ->
      get_unique_key e1 = get_unique_key e2)
  /\
  (forall e1 e2 : Electrician,
      Models.phone e1 = Models.phone e2 ->
      case_variant (Models.city e1) (Models.city e2) ->
      case_variant (Models.state e1) (Models.state e2) ->
      get_unique_key e1 = get_unique_key e2).
Proof.
  assert (H : forall e1 e2 : Electrician,
             Models.phone e1 = Models.phone e2 ->
             case_variant (Models.city e1) (Models.city e2) ->
             case_variant (Models.state e1) (Models.state e2) ->
             get_unique_key e1 = get_unique_key e2).
  { intros e1 e2 Hp Hc Hs. unfold get_unique_key.
    now rewrite Hp, (case_variant_lower Hc), (case_variant_lower Hs). }
  split.
  - intros e1 e2 Hp Hc Hs. apply H; [exact Hp | |].
    + rewrite Hc. apply case_variant_refl.
    + rewrite Hs. apply case_variant_refl.
  - exact H.
Qed.

(** ** Matching *)

Lemma findall_cons_none (p : pattern) (c : ascii) (s : str) :
  match_here p (c :: s) = None -> findall p (c :: s) = findall p s.
Proof.
  unfold findall. simpl. now intros ->.
Qed.

Lemma findall_match (p : pattern) (c : ascii) (s m r : str) :
  match_here p (c :: s) = Some (m, r) -> In m (findall p (c :: s)).
Proof.
  unfold findall. simpl. intros ->. now left.
Qed.

Lemma d69_digit (c : ascii) : d69 c = true -> digit c = true.
Proof.
  destruct c as [[] [] [] [] [] [] [] []]; vm_compute; congruence.
Qed.

Lemma digit_isdigit (c : ascii) : digit c = true -> isdigit c = true.
Proof.
  destruct c as [[] [] [] [] [] [] [] []]; vm_compute; congruence.
Qed.

Lemma digit_not_sep (c : ascii) : digit c = true -> sep c = false.
Proof.
  destruct c as [[] [] [] [] [] [] [] []]; vm_compute; congruence.
Qed.

Lemma sep_not_digit (c : ascii) : sep c = true -> digit c = false.
Proof.
  destruct c as [[] [] [] [] [] [] [] []]; vm_compute; congruence.
Qed.

Lemma sep_not_isdigit (c : ascii) : sep c = true -> isdigit c = false.
Proof.
  destruct c as [[] [] [] [] [] [] [] []]; vm_compute; congruence.
Qed.

Lemma sep_not_d69 (c : ascii) : sep c = true -> d69 c = false.
Proof.
  destruct c as [[] [] [] [] [] [] [] []]; vm_compute; congruence.
Qed.

(** A match whose digits end in [n] puts [n] into the result. *)
Lemma recovered_in (p : pattern) (text m n : str) :
  In p patterns ->
  In m (findall p text) ->
  10 <= length (digits_of m) ->
  last_n 10 (digits_of m) = n ->
  In n (_extract_phone_numbers text).
Proof.
  intros Hp Hm Hlen Hn. unfold _extract_phone_numbers.
  apply nodup_In. unfold normalize. apply in_flat_map.
  exists m. split.
  - unfold matches. apply in_flat_map. exists p. now split.
  - apply Nat.leb_le in Hlen. rewrite Hlen. now left.
Qed.

(** Evaluates the character classes applied to literal characters. *)
Ltac class_eval :=
  repeat match goal with
  | |- context [?f (Ascii ?b0 ?b1 ?b2 ?b3 ?b4 ?b5 ?b6 ?b7)] =>
      let t := constr:(f (Ascii b0 b1 b2 b3 b4 b5 b6 b7)) in
      match type of t with
      | bool => let v := eval vm_compute in t in progress change t with v
      end
  end.

(** Rewrites with the classes known of the other characters. *)
Ltac class_hyps :=
  repeat match goal with
  | H : ?f ?c = ?v |- context [?f ?c] => rewrite H
  end.

(** Runs [match_here] and the digit filter on a text whose characters
    are known by their classes. *)
Ltac run_match :=
  repeat (progress (cbn [match_here repeat app filter digits_of];
                    class_eval; class_hyps)).

Ltac digit_facts H :=
  pose proof (digit_isdigit _ H); pose proof (digit_not_sep _ H).

Ltac sep_facts H :=
  pose proof (sep_not_digit _ H); pose proof (sep_not_isdigit _ H);
  pose proof (sep_not_d69 _ H).

Lemma match_here_accepts (p : pattern) :
  forall s m r, match_here p s = Some (m, r) -> s = m ++ r /\ accepts p m.
Proof.
  induction p as [| [cls | cls] p IH]; intros s m r H; simpl in H.
  - inversion H; subst. split; reflexivity.
  - destruct s as [| c s]; [discriminate |].
    destruct (cls c) eqn:Hc; [| discriminate].
    destruct (match_here p s) as [[m' r'] |] eqn:Hm; [| discriminate].
    inversion H; subst. destruct (IH _ _ _ Hm) as [-> Ha].
    split; [reflexivity |]. simpl. eauto.
  - destruct s as [| c s].
    + destruct (IH _ _ _ H) as [E Ha]. split; [exact E |]. simpl. now right.
    + destruct (cls c) eqn:Hc.
      * destruct (match_here p s) as [[m' r'] |] eqn:Hm.
        -- inversion H; subst. destruct (IH _ _ _ Hm) as [-> Ha].
           split; [reflexivity |]. simpl. left. eauto.
        -- destruct (IH _ _ _ H) as [E Ha]. split; [exact E |]. simpl. now right.
      * destruct (IH _ _ _ H) as [E Ha]. split; [exact E |]. simpl. now right.
Qed.

Lemma chr_eq (d c : ascii) : chr d c = true -> c = d.
Proof.
  unfold chr. destruct (ascii_dec d c); [congruence | discriminate].
Qed.

Lemma digit_decimal (c : ascii) : digit c = true -> is_decimal c = true.
Proof. trivial. Qed.

Lemma sep_not_decimal (c : ascii) : sep c = true -> is_decimal c = false.
Proof. exact (@sep_not_digit c). Qed.

(** Takes a word of a pattern apart into its characters. *)
Ltac split_word H :=
  cbn [accepts app repeat rep] in H;
  lazymatch type of H with
  | exists _, _ =>
      let c := fresh "c" in
      let m := fresh "m" in
      let Hc := fresh "Hc" in
      destruct H as (c & m & -> & Hc & H); split_word H
  | _ \/ _ => destruct H as [H | H]; split_word H
  | _ = [] => subst
  | _ => idtac
  end.

(** Collects what the classes of the characters at hand tell. *)
Ltac word_facts :=
  repeat match goal with
         | H : chr _ ?c = true |- _ => apply chr_eq in H; subst c
         | H : d69 ?c = true |- _ =>
             lazymatch goal with
             | _ : digit c = true |- _ => fail
             | _ => pose proof (d69_digit _ H)
             end
         | H : digit ?c = true |- _ =>
             lazymatch goal with
             | _ : isdigit c = true |- _ => fail
             | _ => pose proof (digit_isdigit _ H);
                    pose proof (digit_decimal _ H)
             end
         | H : sep ?c = true |- _ =>
             lazymatch goal with
             | _ : isdigit c = false |- _ => fail
             | _ => pose proof (sep_not_isdigit _ H);
                    pose proof (sep_not_decimal _ H)
             end
         end.

(** ** A number behind other text *)

(** When no match that starts inside [pre] reaches past its end, the
    scan of [pre ++ s] arrives at [s] with nothing left to pass: the
    matches of [s] follow those of [pre]. *)
Lemma findall_from_app (p : pattern) (s : str) :
  forall (pre : str) (skip : nat),
    skip <= length pre ->
    (forall a b m r,
        pre = a ++ b -> b <> [] ->
        match_here p (b ++ s) = Some (m, r) -> length m <= length b) ->
    exists l, findall_from p skip (pre ++ s) = l ++ findall p s.
Proof.
  induction pre as [| c pre IH]; intros skip Hskip Hin.
  - cbn in Hskip. assert (skip = 0) as -> by lia. now exists [].
  - assert (Hin' : forall a b m r,
               pre = a ++ b -> b <> [] ->
               match_here p (b ++ s) = Some (m, r) -> length m <= length b).
    { intros a b m r -> Hb Hm. now apply (Hin (c :: a) b m r). }
    cbn [app findall_from length] in *.
    destruct skip as [| k].
    + destruct (match_here p (c :: pre ++ s)) as [[m r] |] eqn:Hm.
      * assert (Hl : length m <= length (c :: pre)).
        { apply (Hin [] (c :: pre) m r); [reflexivity | discriminate | exact Hm]. }
        cbn [length] in Hl.
        destruct (IH (length m - 1)) as [l Hl']; [lia | exact Hin' |].
        exists (m :: l). now rewrite Hl'.
      * apply IH; [lia | exact Hin'].
    + apply IH; [lia | exact Hin'].
Qed.

Lemma app_longer_prefix (b s m r : str) :
  b ++ s = m ++ r -> length b < length m ->
  exists m', m' <> [] /\ m = b ++ m'.
Proof.
  revert m. induction b as [| c b IH]; intros m E Hl.
  - exists m. split; [| reflexivity]. now destruct m.
  - destruct m as [| c' m]; [cbn in Hl; lia |].
    cbn in E, Hl. injection E as <- E.
    destruct (IH m E) as (m' & Hm' & ->); [lia |].
    now exists m'.
Qed.

(** Only the last two characters of [pre] count. *)
Lemma clear_before_suffix (a b : str) :
  clear_before (a ++ b) = true -> b <> [] -> clear_before b = true.
Proof.
  unfold clear_before. rewrite rev_app_distr.
  destruct (rev b) as [| c [| d bb]] eqn:E.
  - intros _ Hb. exfalso. apply Hb.
    rewrite <- (rev_involutive b), E. reflexivity.
  - cbn [app]. intros H _.
    destruct (is_decimal c); [discriminate H |]. now destruct (sep c).
  - cbn [app]. trivial.
Qed.

Lemma digit_free_clear_before (pre : str) :
  digit_free pre = true -> clear_before pre = true.
Proof.
  unfold digit_free, clear_before. intros H.
  assert (Hr : forall c, In c (rev pre) -> is_decimal c = false).
  { intros c Hc. apply in_rev in Hc. rewrite forallb_forall in H.
    apply H in Hc. now destruct (is_decimal c). }
  destruct (rev pre) as [| c [| d bb]].
  - reflexivity.
  - rewrite (Hr c) by now left. now destruct (sep c).
  - rewrite (Hr c) by now left. rewrite (Hr d) by (right; now left).
    now destruct (sep c).
Qed.

(** Decides [clear_before] on the first [k] characters of a word whose
    characters are known by their classes. *)
Ltac innermost e :=
  lazymatch e with
  | S ?e' => innermost e'
  | _ => constr:(e)
  end.

Ltac prefix_cases :=
  first
    [ exfalso; lia
    | lazymatch goal with
      | |- clear_before (firstn ?e _) = false =>
          let k := innermost e in
          destruct k;
          [ first
              [ exfalso; lia
              | repeat (progress (cbn [firstn clear_before rev app negb];
                                  class_eval; class_hyps));
                reflexivity ]
          | prefix_cases ]
      end ].

(** In a word of a pattern that begins with a digit, a character with
    another one behind it is a digit, or a separator behind a digit. *)
Lemma word_prefix_touches (p : pattern) (b m' : str) :
  In p [pat_91; pat_0; pat_plain; pat_mid] ->
  accepts p (b ++ m') -> b <> [] -> m' <> [] ->
  clear_before b = false.
Proof.
  intros Hp Ha Hb Hm'.
  remember (b ++ m') as w eqn:E.
  assert (Hf : b = firstn (length b) w).
  { subst w. rewrite firstn_app, Nat.sub_diag, firstn_all. cbn.
    now rewrite app_nil_r. }
  assert (Hlen : length w = length b + length m')
    by (subst w; apply length_app).
  assert (Hk : 0 < length b) by (destruct b; [contradiction | cbn; lia]).
  assert (Hj : 0 < length m') by (destruct m'; [contradiction | cbn; lia]).
  rewrite Hf. clear Hf E Hb Hm'.
  generalize dependent (length m'). generalize dependent (length b).
  clear b m'. intros k Hk j Hlen Hj.
  cbn [In] in Hp. destruct Hp as [<- | [<- | [<- | [<- | []]]]].
  all: unfold pat_91, pat_0, pat_plain, pat_mid in Ha.
  all: split_word Ha.
  all: word_facts.
  all: cbn [length] in Hlen.
  all: prefix_cases.
Qed.

(** ... so that a match which starts in a text with [clear_before] ends
    in it. *)
Lemma match_stays_before (p : pattern) (b s m r : str) :
  In p [pat_91; pat_0; pat_plain; pat_mid] ->
  clear_before b = true -> b <> [] ->
  match_here p (b ++ s) = Some (m, r) ->
  length m <= length b.
Proof.
  intros Hp Hc Hb Hm.
  destruct (le_lt_dec (length m) (length b)) as [Hl | Hl]; [exact Hl |].
  destruct (match_here_accepts _ _ Hm) as [E Ha].
  destruct (app_longer_prefix _ _ _ _ E Hl) as (m' & Hm' & ->).
  rewrite (word_prefix_touches Hp Ha Hb Hm') in Hc. discriminate Hc.
Qed.

Lemma findall_after_clear (p : pattern) (pre s x : str) :
  In p [pat_91; pat_0; pat_plain; pat_mid] ->
  clear_before pre = true ->
  In x (findall p s) -> In x (findall p (pre ++ s)).
Proof.
  intros Hp Hc Hx. unfold findall at 1.
  destruct (@findall_from_app p s pre 0) as [l ->].
  - lia.
  - intros a b m r -> Hb Hm.
    apply (@match_stays_before p b s m r Hp); [| exact Hb | exact Hm].
    now apply clear_before_suffix with a.
  - apply in_or_app. now right.
Qed.

(** The pattern [pat] finds the number: the matches inside the text
    before it end there, the positions inside the prefix fail, and the
    match at the number's place yields the ten digits. *)
Ltac recover_with pat Hpre :=
  eapply recovered_in with (p := pat);
  [ cbn; auto 10
  | apply findall_after_clear; [cbn; auto 10 | exact Hpre |];
    unfold pat, rep; cbn [repeat app];
    repeat (rewrite findall_cons_none by (run_match; reflexivity));
    eapply findall_match; run_match; reflexivity
  | run_match; cbn; lia
  | run_match; reflexivity ].

(** C7 (amended).  A valid mobile number written in any of the supported
    ways (with or without [+91] or [91], itself with or without a space
    or dash behind it, or with a leading [0]; with or without a space or
    dash after the fifth digit) is recovered from a text, whatever else
    the text holds, if no digit run touches the written number from the
    left: the text before it ends neither in a decimal digit nor in a
    decimal digit followed by one space or dash.  The returned numbers
    then include exactly these ten digits, the last ten digits of a
    match; the text before may hold digits and numbers of its own. *)
Theorem extract_phone_numbers_recovers :
  forall (pre post n : str) (p : prefix) (mid : option ascii),
    valid_mobile n = true ->
    prefix_ok p = true ->
    sep_ok mid = true ->
    clear_before pre = true ->
    In n (_extract_phone_numbers (pre ++ written p mid n ++ post)).
Proof.
  intros pre post n p mid Hn Hp Hmid Hpre.
  unfold valid_mobile in Hn.
  apply andb_prop in Hn as [Hn Hall]. apply andb_prop in Hn as [Hlen Hfirst].
  apply Nat.eqb_eq in Hlen.
  do 10 (destruct n as [| ? n]; [discriminate Hlen |]).
  destruct n; [| discriminate Hlen]. clear Hlen.
  cbn [forallb] in Hall.
  repeat match type of Hall with
         | (_ && _) = true =>
             let H := fresh "Hd" in apply andb_prop in Hall as [H Hall]
         end.
  clear Hall.
  repeat match goal with
         | H : digit ?c = true |- _ =>
             lazymatch goal with
             | _ : isdigit c = true |- _ => fail
             | _ => digit_facts H
             end
         end.
  destruct mid as [c |]; [cbn [sep_ok] in Hmid; sep_facts Hmid |];
    (destruct p as [| [] [sc |] |];
     [ | cbn [prefix_ok sep_ok] in Hp; sep_facts Hp
       | | cbn [prefix_ok sep_ok] in Hp; sep_facts Hp | | ]);
    unfold written;
    cbn [prefix_text opt_char firstn skipn app lit String.list_ascii_of_string].
  (* a separator after the fifth digit: the last pattern *)
  1-6: recover_with pat_mid Hpre.
  (* ten digits in a row *)
  - recover_with pat_plain Hpre.
  - recover_with pat_91 Hpre.
  - recover_with pat_91 Hpre.
  - recover_with pat_91 Hpre.
  - recover_with pat_91 Hpre.
  - recover_with pat_0 Hpre.
Qed.

(** C7, an instance: [+91 98250 12345] behind a shop number. *)
Lemma extract_phone_numbers_recovers_witness :
  valid_mobile (lit "9825012345") = true /\
  prefix_ok (CountryCode true (Some " "%char)) = true /\
  sep_ok (Some " "%char) = true /\
  clear_before (lit "Shop 12, ph: ") = true /\
  In (lit "9825012345")
     (_extract_phone_numbers
        (lit "Shop 12, ph: "
         ++ written (CountryCode true (Some " "%char)) (Some " "%char)
                    (lit "9825012345")
         ++ lit " now")).
Proof.
  repeat split; try reflexivity.
  apply extract_phone_numbers_recovers; reflexivity.
Defined.

(** Digits earlier in the text do no harm: the number is found behind a
    shop number, behind a pin code and a comma, and as the second of two
    numbers. *)
Lemma extract_phone_numbers_behind_digits :
  In (lit "9825012345")
     (_extract_phone_numbers (lit "Shop 12, ph: 9825012345")) /\
  In (lit "9825012345")
     (_extract_phone_numbers (lit "395007, 98250 12345")) /\
  In (lit "9876543210")
     (_extract_phone_numbers (lit "9825012345, 9876543210")).
Proof.
  vm_compute. auto 10.
Qed.

(** Both endings that [clear_before] refuses lose a number: behind a
    digit the plain pattern matches one place early, and behind a digit
    and a space the last pattern does. *)
Lemma extract_phone_numbers_misses_behind_digit :
  clear_before (lit "7") = false /\
  clear_before (lit "395007 ") = false /\
  _extract_phone_numbers (lit "79825012345") = [lit "7982501234"] /\
  _extract_phone_numbers (lit "395007 98250 12345") = [lit "9500798250"].
Proof.
  repeat split; vm_compute; reflexivity.
Qed.

(** C7 as stated fails when digits precede the number: in
    [395007 98250 12345] the last pattern matches [95007 98250], the scan
    resumes behind it, and [9825012345] is not among the results. *)
Lemma extract_phone_numbers_misses_after_digits :
  valid_mobile (lit "9825012345") = true /\
  sep_ok (Some " "%char) = true /\
  lit "395007 " ++ written NoPrefix (Some " "%char) (lit "9825012345") ++ []
    = lit "395007 98250 12345" /\
  _extract_phone_numbers (lit "395007 98250 12345") = [lit "9500798250"] /\
  ~ In (lit "9825012345") (_extract_phone_numbers (lit "395007 98250 12345")).
Proof.
  repeat split; try (vm_compute; reflexivity).
  vm_compute. intros [H | []]. discriminate H.
Qed.

(** The result may hold more than the number written: for
    [919825012345] the plain pattern also matches the first ten digits. *)
Lemma extract_phone_numbers_extra_match :
  In (lit "9825012345") (_extract_phone_numbers (lit "919825012345")) /\
  In (lit "9198250123") (_extract_phone_numbers (lit "919825012345")).
Proof.
  vm_compute. auto.
Qed.

(** C4.  [_extract_phone_numbers] returns [9999999999], a number of one
    distinct digit. *)
Theorem extract_phone_numbers_keeps_degenerate :
  _extract_phone_numbers (lit "9999999999") = [lit "9999999999"] /\
  distinct_chars (lit "9999999999") = 1.
Proof.
  split; vm_compute; reflexivity.
Qed.

(** The check the scripts make: [is_valid_phone] refuses a number of
    fewer than four distinct characters. *)
Lemma is_valid_phone_rejects_degenerate (ph : str) :
  distinct_chars ph < 4 -> is_valid_phone ph = false.
Proof.
  intros H. unfold is_valid_phone.
  destruct (negb (length ph =? 10)); [reflexivity |].
  destruct (negb (starts_6789 ph)); [reflexivity |].
  apply Nat.ltb_lt in H. now rewrite H.
Qed.

(** ... and [extract_phone] of quick_verified_scrape.py returns no such
    number. *)
Lemma extract_phone_rejects_degenerate (text ph : str) :
  In ph (extract_phone text) -> 4 <= distinct_chars ph.
Proof.
  unfold extract_phone. rewrite nodup_In, in_flat_map.
  intros [m [_ H]].
  destruct ((length (last_n 10 (strip_non_decimal m)) =? 10)
            && starts_6789 (last_n 10 (strip_non_decimal m))
            && (4 <=? distinct_chars (last_n 10 (strip_non_decimal m)))) eqn:E;
    [| contradiction].
  destruct H as [<- | []].
  apply andb_prop in E as [_ E]. now apply Nat.leb_le.
Qed.

(** ** The upsert *)

Section StorageFacts.
Import Storage.

Variable fromisoformat : str -> option datetime.
Variable json_dumps : list str -> str.
Variable clock_reading : nat -> datetime.

Local Abbreviation new_row := (Storage.new_row json_dumps).
Local Abbreviation readable := (Storage.readable fromisoformat).
Local Abbreviation timestamp := (Storage.timestamp fromisoformat clock_reading).
Local Abbreviation from_electrician :=
  (Storage.from_electrician fromisoformat json_dumps clock_reading).
Local Abbreviation upsert := (Storage.upsert fromisoformat json_dumps clock_reading).
Local Abbreviation upsert_step :=
  (Storage.upsert_step fromisoformat json_dumps clock_reading).
Local Abbreviation process := (Storage.process fromisoformat json_dumps clock_reading).
Local Abbreviation save_to_database :=
  (Storage.save_to_database fromisoformat json_dumps clock_reading).

Lemma readable_timestamp (e : Electrician) (c : nat) :
  readable e = true -> exists ts c', timestamp e c = Some (ts, c').
Proof.
  unfold Storage.readable, Storage.timestamp.
  destruct (Models.scraped_at e) as [| a iso]; [eauto |].
  destruct (fromisoformat (a :: iso)); [eauto | discriminate].
Qed.

Lemma from_electrician_run (e : Electrician) (cm tx : table) (ck : nat) :
  from_electrician e (mkSt cm tx ck) =
  match timestamp e ck with
  | Some (ts, ck') => (Ok (new_row e ts), mkSt cm tx ck')
  | None => (Raise (ValueError (Models.scraped_at e)), mkSt cm tx ck)
  end.
Proof.
  unfold Storage.from_electrician, Storage.timestamp.
  destruct (Models.scraped_at e) as [| a iso]; [reflexivity |].
  destruct (fromisoformat (a :: iso)); reflexivity.
Qed.

Lemma upsert_insert (flag : bool) (e : Electrician) (n : Z)
      (cm tx : table) (ck : nat) (ts : datetime) (ck' : nat) :
  find (key_is (get_unique_key e)) tx = None ->
  timestamp e ck = Some (ts, ck') ->
  upsert flag e n (mkSt cm tx ck) =
  (Ok (n + 1)%Z,
   mkSt cm (tx ++ [set_id (next_id tx) (with_defaults (new_row e ts))]) ck').
Proof.
  intros Hf Ht. cbv [Storage.upsert bind query_first get ret txn].
  rewrite Hf, from_electrician_run, Ht. reflexivity.
Qed.

Lemma upsert_update (e : Electrician) (n : Z) (cm tx : table) (ck : nat)
      (r : ElectricianDB) (ts : datetime) (ck' : nat) :
  find (key_is (get_unique_key e)) tx = Some r ->
  timestamp e ck = Some (ts, ck') ->
  upsert true e n (mkSt cm tx ck) =
  (Ok n,
   mkSt cm
     (replace_first (get_unique_key e)
        (set_scraped_at (clock_reading ck') (merge_fields r (new_row e ts))) tx)
     (S ck')).
Proof.
  intros Hf Ht. cbv [Storage.upsert bind query_first get ret txn].
  rewrite Hf, from_electrician_run, Ht. reflexivity.
Qed.

Lemma upsert_skip (e : Electrician) (n : Z) (s : St) (r : ElectricianDB) :
  find (key_is (get_unique_key e)) (txn s) = Some r ->
  upsert false e n s = (Ok n, s).
Proof.
  intros Hf. cbv [Storage.upsert bind query_first get ret].
  now rewrite Hf.
Qed.

Lemma upsert_raise (flag : bool) (e : Electrician) (n : Z)
      (cm tx : table) (ck : nat) :
  timestamp e ck = None ->
  find (key_is (get_unique_key e)) tx = None \/ flag = true ->
  upsert flag e n (mkSt cm tx ck) =
  (Raise (ValueError (Models.scraped_at e)), mkSt cm tx ck).
Proof.
  intros Ht Hc. cbv [Storage.upsert bind query_first get ret txn].
  destruct (find (key_is (get_unique_key e)) tx) eqn:Hf.
  - destruct Hc as [Hc | ->]; [discriminate |].
    now rewrite from_electrician_run, Ht.
  - now rewrite from_electrician_run, Ht.
Qed.

Lemma upsert_cases (flag : bool) (e : Electrician) (n : Z) (s : St) :
  upsert_step flag e n s (upsert flag e n s).
Proof.
  destruct s as [cm tx ck].
  destruct (find (key_is (get_unique_key e)) tx) as [r |] eqn:Hf;
    destruct (timestamp e ck) as [[ts ck'] |] eqn:Ht.
  - destruct flag.
    + rewrite upsert_update with (r := r) (ts := ts) (ck' := ck') by assumption.
      now apply step_update with (s := mkSt cm tx ck).
    + rewrite upsert_skip with (r := r) by assumption.
      now apply step_skip with (r := r).
  - destruct flag.
    + rewrite upsert_raise by auto.
      apply step_raise with (s := mkSt cm tx ck); auto.
    + rewrite upsert_skip with (r := r) by assumption.
      now apply step_skip with (r := r).
  - rewrite upsert_insert with (ts := ts) (ck' := ck') by assumption.
    now apply step_insert with (s := mkSt cm tx ck).
  - rewrite upsert_raise by auto.
    apply step_raise with (s := mkSt cm tx ck); auto.
Qed.

Lemma upsert_committed (flag : bool) (e : Electrician) (n : Z) (s : St) :
  committed (snd (upsert flag e n s)) = committed s.
Proof.
  destruct (upsert_cases flag e n s); reflexivity.
Qed.

Lemma process_committed (flag : bool) (es : list Electrician) :
  forall (n : Z) (s : St),
    committed (snd (process flag es n s)) = committed s.
Proof.
  induction es as [| e es IH]; intros n s; [reflexivity |].
  cbn [Storage.process]. unfold bind.
  pose proof (upsert_committed flag e n s) as Hu.
  destruct (upsert flag e n s) as [[n' | x] s1]; cbn [snd] in *.
  - now rewrite IH.
  - exact Hu.
Qed.

(** [save_to_database] runs the loop on the state of the new session;
    it commits what the loop leaves, or discards it when the loop
    raises. *)
Lemma save_to_database_run (es : list Electrician) (flag : bool) (s : St) :
  save_to_database es flag s =
  match process flag es 0%Z (mkSt (committed s) (committed s) (clock s)) with
  | (Ok n, s') => (Ok n, mkSt (txn s') (txn s') (clock s'))
  | (Raise e, s') => (Raise e, mkSt (committed s) (committed s) (clock s'))
  end.
Proof.
  pose proof (process_committed flag es 0%Z
                (mkSt (committed s) (committed s) (clock s))) as Hc.
  cbv [Storage.save_to_database bind try_finally try_except session_begin
       session_commit session_rollback session_close get put ret raise
       committed txn clock] in *.
  destruct s as [cm tx ck].
  destruct (process flag es 0%Z (mkSt cm cm ck)) as [[n | x] [cm' tx' ck']];
    cbn [snd] in Hc; [reflexivity | now subst].
Qed.

(** C10.  When the loop over the batch raises, [save_to_database]
    raises the same exception, and the database is what it was before
    the call: nothing the loop wrote in the session is kept. *)
Theorem failed_batch_is_rolled_back :
  forall (es : list Electrician) (flag : bool) (s s1 : St) (e : exn),
    process flag es 0%Z (mkSt (committed s) (committed s) (clock s))
      = (Raise e, s1) ->
    exists s',
      save_to_database es flag s = (Raise e, s') /\
      committed s' = committed s /\
      txn s' = committed s.
Proof.
  intros es flag s s1 e H.
  rewrite save_to_database_run, H.
  eexists. split; [reflexivity |]. split; reflexivity.
Qed.

(** A call that raises leaves the database as it was, whatever the
    batch. *)
Lemma raise_leaves_database (es : list Electrician) (flag : bool)
      (s s' : St) (e : exn) :
  save_to_database es flag s = (Raise e, s') -> committed s' = committed s.
Proof.
  rewrite save_to_database_run.
  destruct (process flag es 0%Z _) as [[n | x] s1]; intros H;
    inversion H; reflexivity.
Qed.

(** *** Tables *)

Lemma find_app_some (f : ElectricianDB -> bool) (t : table)
      (x r : ElectricianDB) :
  find f t = Some r -> find f (t ++ [x]) = Some r.
Proof.
  induction t as [| a t IH]; simpl; [discriminate |].
  destruct (f a); [trivial | exact IH].
Qed.

Lemma find_app_none (f : ElectricianDB -> bool) (t : table) (x : ElectricianDB) :
  find f t = None -> find f (t ++ [x]) = if f x then Some x else None.
Proof.
  induction t as [| a t IH]; simpl; [trivial |].
  destruct (f a); [discriminate | exact IH].
Qed.

Lemma str_eqb_refl (k : str) : str_eqb k k = true.
Proof.
  unfold str_eqb. destruct (str_eq_dec k k); congruence.
Qed.

Lemma str_eqb_eq (a b : str) : str_eqb a b = true <-> a = b.
Proof.
  unfold str_eqb. destruct (str_eq_dec a b); split; congruence.
Qed.

Lemma key_is_same_key (k : str) (r r' : ElectricianDB) :
  unique_key r' = unique_key r -> key_is k r' = key_is k r.
Proof.
  unfold key_is. now intros ->.
Qed.

(** The row written back is found where the old one was. *)
Lemma find_replace_first (k : str) (r r' : ElectricianDB) (t : table) :
  find (key_is k) t = Some r ->
  unique_key r' = unique_key r ->
  find (key_is k) (replace_first k r' t) = Some r'.
Proof.
  intros Hf Hk. induction t as [| a t IH]; simpl in *; [discriminate |].
  destruct (key_is k a) eqn:Ha.
  - inversion Hf; subst a. simpl.
    now rewrite (@key_is_same_key k r r' Hk), Ha.
  - simpl. rewrite Ha. now apply IH.
Qed.

Lemma replace_first_length (k : str) (r' : ElectricianDB) (t : table) :
  length (replace_first k r' t) = length t.
Proof.
  induction t as [| a t IH]; simpl; [reflexivity |].
  destruct (key_is k a); simpl; congruence.
Qed.

Lemma keeps_verification_refl (t : table) : keeps_verification t t.
Proof.
  intros k r H. exists r. auto.
Qed.

Lemma keeps_verification_trans (t1 t2 t3 : table) :
  keeps_verification t1 t2 -> keeps_verification t2 t3 ->
  keeps_verification t1 t3.
Proof.
  intros H12 H23 k r H.
  destruct (H12 k r H) as (r2 & Hf2 & Hv2 & Hb2 & Ha2).
  destruct (H23 k r2 Hf2) as (r3 & Hf3 & Hv3 & Hb3 & Ha3).
  exists r3. repeat split; congruence.
Qed.

Lemma keeps_verification_app (t : table) (x : ElectricianDB) :
  keeps_verification t (t ++ [x]).
Proof.
  intros k r H. exists r. split; [now apply find_app_some | auto].
Qed.

Lemma keeps_verification_replace (k0 : str) (r0 r1 : ElectricianDB) (t : table) :
  find (key_is k0) t = Some r0 ->
  unique_key r1 = unique_key r0 ->
  verified r1 = verified r0 ->
  verified_by r1 = verified_by r0 ->
  verified_at r1 = verified_at r0 ->
  keeps_verification t (replace_first k0 r1 t).
Proof.
  intros Hf Hk Hv Hb Ha.
  induction t as [| a t IH]; simpl in *; [discriminate |].
  destruct (key_is k0 a) eqn:E.
  - inversion Hf; subst a. intros k r. simpl.
    rewrite (@key_is_same_key k r0 r1 Hk).
    destruct (key_is k r0).
    + intros H; inversion H; subst r. exists r1. auto.
    + intros H. exists r. auto.
  - specialize (IH Hf). intros k r. simpl.
    destruct (key_is k a).
    + intros H. exists r. auto.
    + apply IH.
Qed.

(** The merge writes none of the columns outside its list. *)
Lemma merge_fields_frame (r d : ElectricianDB) :
  let r' := merge_fields r d in
  id r' = id r /\ phone r' = phone r /\ city r' = city r /\
  state r' = state r /\ pincode r' = pincode r /\
  business_name r' = business_name r /\ email r' = email r /\
  website r' = website r /\ services r' = services r /\
  experience_years r' = experience_years r /\ source r' = source r /\
  verified r' = verified r /\ scraped_at r' = scraped_at r /\
  unique_key r' = unique_key r /\ category r' = category r /\
  service_description r' = service_description r /\
  smart_meter_score r' = smart_meter_score r /\
  smart_meter_notes r' = smart_meter_notes r /\
  verified_by r' = verified_by r /\ verified_at r' = verified_at r.
Proof.
  unfold merge_fields.
  destruct (truthy_str (name d)), (truthy_opt_str (address d)),
    (truthy_opt_float (rating d)), (truthy_opt_int (review_count d)),
    (truthy_opt_str (source_url d));
    cbn; repeat split; reflexivity.
Qed.

(** ... and each column of its list takes the value offered when that
    value is true in Python's sense, and keeps its own otherwise. *)
Lemma merge_fields_written (r d : ElectricianDB) :
  let r' := merge_fields r d in
  name r' = (if truthy_str (name d) then name d else name r) /\
  address r' = (if truthy_opt_str (address d) then address d else address r) /\
  rating r' = (if truthy_opt_float (rating d) then rating d else rating r) /\
  review_count r' =
    (if truthy_opt_int (review_count d) then review_count d else review_count r) /\
  source_url r' =
    (if truthy_opt_str (source_url d) then source_url d else source_url r).
Proof.
  unfold merge_fields.
  destruct (truthy_str (name d)), (truthy_opt_str (address d)),
    (truthy_opt_float (rating d)), (truthy_opt_int (review_count d)),
    (truthy_opt_str (source_url d));
    cbn; repeat split; reflexivity.
Qed.

Lemma upsert_keeps_verification (flag : bool) (e : Electrician) (n : Z) (s : St) :
  keeps_verification (txn s) (txn (snd (upsert flag e n s))).
Proof.
  destruct (upsert_cases flag e n s) as [ts ck' Hf Ht | r ts ck' _ Hf Ht | |];
    cbn [snd txn].
  - apply keeps_verification_app.
  - pose proof (merge_fields_frame r (new_row e ts)) as F. cbv zeta in F.
    apply keeps_verification_replace with (r0 := r); [exact Hf | ..];
      cbn; tauto.
  - apply keeps_verification_refl.
  - apply keeps_verification_refl.
Qed.

Lemma process_keeps_verification (flag : bool) (es : list Electrician) :
  forall (n : Z) (s : St),
    keeps_verification (txn s) (txn (snd (process flag es n s))).
Proof.
  induction es as [| e es IH]; intros n s.
  - apply keeps_verification_refl.
  - cbn [Storage.process]. unfold bind.
    pose proof (upsert_keeps_verification flag e n s) as Hu.
    destruct (upsert flag e n s) as [[n' | x] s1]; cbn [snd] in *.
    + eapply keeps_verification_trans; [exact Hu | apply IH].
    + exact Hu.
Qed.

(** No call of [save_to_database] takes a record away or touches its
    verification. *)
Lemma save_keeps_verification (es : list Electrician) (flag : bool) (s : St) :
  keeps_verification (committed s)
                     (committed (snd (save_to_database es flag s))).
Proof.
  rewrite save_to_database_run.
  pose proof (process_keeps_verification flag es 0%Z
                (mkSt (committed s) (committed s) (clock s))) as H.
  destruct (process flag es 0%Z _) as [[n | x] s1]; cbn [snd txn committed] in *.
  - exact H.
  - apply keeps_verification_refl.
Qed.

(** C1.  A stored record that is verified stays verified, and keeps
    its [verified_by] and [verified_at], through the upsert of a
    candidate that has the record's key and is not verified. *)
Theorem verified_is_monotonic :
  forall (s : St) (c : Electrician) (flag : bool) (r : ElectricianDB),
    find (key_is (get_unique_key c)) (committed s) = Some r ->
    verified r = true ->
    Models.verified c = false ->
    exists r',
      find (key_is (get_unique_key c))
           (committed (snd (save_to_database [c] flag s))) = Some r' /\
      verified r' = true /\
      verified_by r' = verified_by r /\
      verified_at r' = verified_at r.
Proof.
  intros s c flag r Hf Hv _.
  destruct (save_keeps_verification [c] flag s _ Hf) as (r' & H1 & H2 & H3 & H4).
  exists r'. repeat split; congruence.
Qed.

(** *** One candidate *)

Lemma process_single (flag : bool) (c : Electrician) (n : Z) (s : St) :
  process flag [c] n s = upsert flag c n s.
Proof.
  cbn [Storage.process]. unfold bind, ret.
  destruct (upsert flag c n s) as [[n' | x] s1]; reflexivity.
Qed.

Lemma key_in_find (k : str) (t : table) :
  key_in k t = match find (key_is k) t with Some _ => true | None => false end.
Proof.
  unfold key_in. induction t as [| a t IH]; simpl; [reflexivity |].
  destruct (key_is k a); [reflexivity | exact IH].
Qed.

Lemma key_is_new_row (e : Electrician) (ts : datetime) (i : Z) :
  key_is (get_unique_key e) (set_id i (with_defaults (new_row e ts))) = true.
Proof.
  unfold key_is. cbn. apply str_eqb_refl.
Qed.

(** The upsert of a candidate whose key the database has. *)
Lemma save_update (s : St) (c : Electrician) (r : ElectricianDB)
      (ts : datetime) (ck' : nat) :
  find (key_is (get_unique_key c)) (committed s) = Some r ->
  timestamp c (clock s) = Some (ts, ck') ->
  let r' := set_scraped_at (clock_reading ck') (merge_fields r (new_row c ts)) in
  let t' := replace_first (get_unique_key c) r' (committed s) in
  save_to_database [c] true s = (Ok 0%Z, mkSt t' t' (S ck')).
Proof.
  intros Hf Ht. cbv zeta.
  rewrite save_to_database_run, process_single.
  now rewrite upsert_update with (r := r) (ts := ts) (ck' := ck').
Qed.

(** The upsert of a candidate whose key the database does not have. *)
Lemma save_insert (s : St) (c : Electrician) (flag : bool)
      (ts : datetime) (ck' : nat) :
  find (key_is (get_unique_key c)) (committed s) = None ->
  timestamp c (clock s) = Some (ts, ck') ->
  let t' := committed s
            ++ [set_id (next_id (committed s)) (with_defaults (new_row c ts))] in
  save_to_database [c] flag s = (Ok 1%Z, mkSt t' t' ck').
Proof.
  intros Hf Ht. cbv zeta.
  rewrite save_to_database_run, process_single.
  now rewrite upsert_insert with (ts := ts) (ck' := ck').
Qed.

Lemma replace_first_pointwise (k : str) (r r' : ElectricianDB) (t : table) :
  find (key_is k) t = Some r ->
  Forall2 (fun a b => b = a \/ (a = r /\ b = r')) t (replace_first k r' t).
Proof.
  induction t as [| a t IH]; simpl; [discriminate |].
  destruct (key_is k a).
  - intros H; inversion H; subst a. constructor; [now right |].
    clear. induction t; constructor; auto.
  - intros H. constructor; [now left | now apply IH].
Qed.

(** C6.  When the database has a record under the candidate's key, the
    upsert counts nothing as inserted and writes that record only: of
    its columns, [name], [address], [rating], [review_count] and
    [source_url] take the candidate's value where that value is neither
    absent nor empty (nor zero), and keep their own otherwise; every
    other column but [scraped_at] keeps its value; and every other
    row is untouched. *)
Theorem update_writes_only_listed_fields :
  forall (s : St) (c : Electrician) (r : ElectricianDB),
    find (key_is (get_unique_key c)) (committed s) = Some r ->
    readable c = true ->
    exists s' r',
      save_to_database [c] true s = (Ok 0%Z, s') /\
      find (key_is (get_unique_key c)) (committed s') = Some r' /\
      Forall2 (fun a b => b = a \/ (a = r /\ b = r'))
              (committed s) (committed s') /\
      (* the columns of the list *)
      name r' = (if truthy_str (Models.name c)
                 then Models.name c else name r) /\
      address r' = (if truthy_opt_str (Models.address c)
                    then Models.address c else address r) /\
      rating r' = (if truthy_opt_float (Models.rating c)
                   then Models.rating c else rating r) /\
      review_count r' = (if truthy_opt_int (Models.review_count c)
                         then Models.review_count c else review_count r) /\
      source_url r' = (if truthy_opt_str (Models.source_url c)
                       then Models.source_url c else source_url r) /\
      (* all the others, [scraped_at] apart *)
      id r' = id r /\ phone r' = phone r /\ city r' = city r /\
      state r' = state r /\ pincode r' = pincode r /\
      business_name r' = business_name r /\ email r' = email r /\
      website r' = website r /\ services r' = services r /\
      experience_years r' = experience_years r /\ source r' = source r /\
      verified r' = verified r /\
      unique_key r' = unique_key r /\ category r' = category r /\
      service_description r' = service_description r /\
      smart_meter_score r' = smart_meter_score r /\
      smart_meter_notes r' = smart_meter_notes r /\
      verified_by r' = verified_by r /\ verified_at r' = verified_at r.
Proof.
  intros s c r Hf Hr.
  destruct (readable_timestamp c (clock s) Hr) as (ts & ck' & Ht).
  pose proof (save_update s c Hf Ht) as Hs. cbv zeta in Hs.
  pose proof (merge_fields_frame r (new_row c ts)) as F. cbv zeta in F.
  pose proof (merge_fields_written r (new_row c ts)) as W. cbv zeta in W.
  cbn [Storage.new_row name address rating review_count source_url] in W.
  eexists. eexists. split; [exact Hs |]. cbn [committed].
  split; [apply find_replace_first with (r := r); [exact Hf | cbn; tauto] |].
  split; [now apply replace_first_pointwise |].
  cbn. tauto.
Qed.

(** C8 (amended).  When the database has no record under the
    candidate's key, the upsert counts one insertion and appends one
    row: it copies the candidate's fields (the services as JSON text, or
    nothing for an empty list; rating and review count absent when the
    candidate has none; the verification flag as the candidate has it,
    false unless set), has the fit score 0 and no category, notes or
    verification metadata, and carries as [scraped_at] the candidate's
    own timestamp, or the current time when the candidate has none. *)
Theorem insert_copies_candidate :
  forall (s : St) (c : Electrician) (flag : bool),
    find (key_is (get_unique_key c)) (committed s) = None ->
    readable c = true ->
    exists s' ts,
      save_to_database [c] flag s = (Ok 1%Z, s') /\
      committed s' =
        committed s ++
        [mkRow (next_id (committed s)) (Models.name c) (Models.phone c)
           (Models.city c) (Models.state c) (Models.address c)
           (Models.pincode c) (Models.business_name c) (Models.email c)
           (Models.website c)
           (match Models.services c with
            | [] => None
            | l => Some (json_dumps l)
            end)
           (Models.experience_years c) (Models.rating c)
           (Models.review_count c) (Models.source c) (Models.source_url c)
           (Models.verified c) ts (Some (get_unique_key c))
           None None (Some 0%Z) None None None] /\
      (Models.scraped_at c = [] -> ts = clock_reading (clock s)) /\
      (forall d, Models.scraped_at c <> [] ->
                 fromisoformat (Models.scraped_at c) = Some d -> ts = d).
Proof.
  intros s c flag Hf Hr.
  destruct (readable_timestamp c (clock s) Hr) as (ts & ck' & Ht).
  pose proof (save_insert s c flag Hf Ht) as Hs. cbv zeta in Hs.
  eexists. exists ts. split; [exact Hs |]. split; [reflexivity |].
  unfold Storage.timestamp in Ht.
  destruct (Models.scraped_at c) as [| a iso] eqn:E.
  - inversion Ht. split; [reflexivity | congruence].
  - split; [discriminate |]. intros d _ Hd. rewrite Hd in Ht. congruence.
Qed.

Lemma save_skip (s : St) (c : Electrician) (r : ElectricianDB) :
  find (key_is (get_unique_key c)) (committed s) = Some r ->
  save_to_database [c] false s =
    (Ok 0%Z, mkSt (committed s) (committed s) (clock s)).
Proof.
  intros Hf.
  rewrite save_to_database_run, process_single.
  now rewrite upsert_skip with (r := r).
Qed.

(** C3 (amended).  [save_to_database] looks at no candidate's phone
    beyond building the key from it: whatever the phone, a candidate
    with a readable timestamp is stored.  The call returns, counting 1
    when the key was new and 0 otherwise, and afterwards the database
    has a record under the candidate's key. *)
Theorem no_candidate_is_rejected :
  forall (s : St) (c : Electrician) (flag : bool),
    readable c = true ->
    exists s' r,
      save_to_database [c] flag s =
        (Ok (if key_in (get_unique_key c) (committed s) then 0 else 1)%Z, s') /\
      find (key_is (get_unique_key c)) (committed s') = Some r.
Proof.
  intros s c flag Hr.
  destruct (readable_timestamp c (clock s) Hr) as (ts & ck' & Ht).
  rewrite key_in_find.
  destruct (find (key_is (get_unique_key c)) (committed s)) as [r |] eqn:Hf.
  - destruct flag.
    + pose proof (save_update s c Hf Ht) as Hs. cbv zeta in Hs.
      eexists. eexists. split; [exact Hs |]. cbn [committed].
      apply find_replace_first with (r := r); [exact Hf |].
      pose proof (merge_fields_frame r (new_row c ts)) as F. cbn in *. tauto.
    + eexists. exists r. split; [now apply save_skip with (r := r) |].
      exact Hf.
  - pose proof (save_insert s c flag Hf Ht) as Hs. cbv zeta in Hs.
    eexists. eexists. split; [exact Hs |]. cbn [committed].
    rewrite find_app_none by exact Hf. now rewrite key_is_new_row.
Qed.

(** *** The same candidate twice *)

Lemma set_scraped_at_twice (x y : datetime) (r : ElectricianDB) :
  set_scraped_at x (set_scraped_at y r) = set_scraped_at x r.
Proof. reflexivity. Qed.

Lemma same_but_scraped_at_refl (r : ElectricianDB) : same_but_scraped_at r r.
Proof. unfold same_but_scraped_at. now destruct r. Qed.

Lemma same_but_scraped_at_set (x : datetime) (r : ElectricianDB) :
  same_but_scraped_at r (set_scraped_at x r).
Proof. reflexivity. Qed.

(** Offering a row the values it already has changes nothing. *)
Lemma merge_fields_fixed (r d : ElectricianDB) :
  (truthy_str (name d) = true -> name r = name d) ->
  (truthy_opt_str (address d) = true -> address r = address d) ->
  (truthy_opt_float (rating d) = true -> rating r = rating d) ->
  (truthy_opt_int (review_count d) = true -> review_count r = review_count d) ->
  (truthy_opt_str (source_url d) = true -> source_url r = source_url d) ->
  merge_fields r d = r.
Proof.
  intros H1 H2 H3 H4 H5. unfold merge_fields.
  destruct (truthy_str (name d));
    [rewrite <- H1 by reflexivity |];
    (destruct (truthy_opt_str (address d));
     [rewrite <- H2 by reflexivity |]);
    (destruct (truthy_opt_float (rating d));
     [rewrite <- H3 by reflexivity |]);
    (destruct (truthy_opt_int (review_count d));
     [rewrite <- H4 by reflexivity |]);
    (destruct (truthy_opt_str (source_url d));
     [rewrite <- H5 by reflexivity |]);
    destruct r; reflexivity.
Qed.

(** The row a candidate has just been merged into is a fixed point of
    merging that candidate again. *)
Lemma merge_fields_again (r : ElectricianDB) (c : Electrician)
      (ts ts' x : datetime) :
  merge_fields (set_scraped_at x (merge_fields r (new_row c ts))) (new_row c ts')
  = set_scraped_at x (merge_fields r (new_row c ts)).
Proof.
  pose proof (merge_fields_written r (new_row c ts)) as W. cbv zeta in W.
  cbn [Storage.new_row name address rating review_count source_url] in W.
  destruct W as (W1 & W2 & W3 & W4 & W5).
  apply merge_fields_fixed;
    cbn [Storage.new_row set_scraped_at name address rating review_count
         source_url];
    intros T.
  - now rewrite W1, T.
  - now rewrite W2, T.
  - now rewrite W3, T.
  - now rewrite W4, T.
  - now rewrite W5, T.
Qed.

(** ... and so is the row inserted for it. *)
Lemma merge_fields_inserted (c : Electrician) (ts ts' : datetime) (i : Z) :
  merge_fields (set_id i (with_defaults (new_row c ts))) (new_row c ts')
  = set_id i (with_defaults (new_row c ts)).
Proof.
  apply merge_fields_fixed; intros _; reflexivity.
Qed.

Lemma replace_first_same_but (k : str) (x : datetime) (r : ElectricianDB)
      (t : table) :
  find (key_is k) t = Some r ->
  Forall2 same_but_scraped_at t (replace_first k (set_scraped_at x r) t).
Proof.
  assert (R : forall l : table, Forall2 same_but_scraped_at l l).
  { induction l; constructor; auto using same_but_scraped_at_refl. }
  induction t as [| a t IH]; simpl; [discriminate |].
  destruct (key_is k a).
  - intros H; inversion H; subst a. constructor; [| apply R].
    apply same_but_scraped_at_set.
  - intros H. constructor; [apply same_but_scraped_at_refl | now apply IH].
Qed.

(** The second upsert of a candidate, given the row the first one
    left under its key. *)
Lemma save_again (s1 : St) (c : Electrician) (r1 : ElectricianDB) :
  find (key_is (get_unique_key c)) (committed s1) = Some r1 ->
  (forall ts', merge_fields r1 (new_row c ts') = r1) ->
  readable c = true ->
  exists s2 r2,
    save_to_database [c] true s1 = (Ok 0%Z, s2) /\
    find (key_is (get_unique_key c)) (committed s2) = Some r2 /\
    same_but_scraped_at r1 r2 /\
    Forall2 same_but_scraped_at (committed s1) (committed s2).
Proof.
  intros Hf Hm Hr.
  destruct (readable_timestamp c (clock s1) Hr) as (ts & ck' & Ht).
  pose proof (save_update s1 c Hf Ht) as Hs. cbv zeta in Hs.
  rewrite Hm in Hs.
  eexists. eexists. split; [exact Hs |]. cbn [committed].
  split; [apply find_replace_first with (r := r1); [exact Hf | reflexivity] |].
  split; [apply same_but_scraped_at_set |].
  now apply replace_first_same_but.
Qed.

(** C2.  Two upserts of one candidate in a row: the second counts no
    insertion, and it leaves every row of the database, the one under
    the candidate's key among them, as the first left it, the
    [scraped_at] column apart. *)
Theorem upsert_twice_is_idempotent :
  forall (s : St) (c : Electrician),
    readable c = true ->
    exists n1 s1 s2 r1 r2,
      save_to_database [c] true s = (Ok n1, s1) /\
      save_to_database [c] true s1 = (Ok 0%Z, s2) /\
      find (key_is (get_unique_key c)) (committed s1) = Some r1 /\
      find (key_is (get_unique_key c)) (committed s2) = Some r2 /\
      same_but_scraped_at r1 r2 /\
      Forall2 same_but_scraped_at (committed s1) (committed s2).
Proof.
  intros s c Hr.
  destruct (readable_timestamp c (clock s) Hr) as (ts & ck' & Ht).
  destruct (find (key_is (get_unique_key c)) (committed s)) as [r |] eqn:Hf.
  - pose proof (save_update s c Hf Ht) as Hs. cbv zeta in Hs.
    set (r1 := set_scraped_at (clock_reading ck')
                 (merge_fields r (new_row c ts))) in *.
    set (s1 := mkSt _ _ _) in Hs.
    assert (Hf1 : find (key_is (get_unique_key c)) (committed s1) = Some r1).
    { cbn [committed s1]. apply find_replace_first with (r := r); [exact Hf |].
      pose proof (merge_fields_frame r (new_row c ts)) as F.
      subst r1. cbn in *. tauto. }
    destruct (@save_again s1 c r1 Hf1) as (s2 & r2 & H2 & Hf2 & Hsame & Hall);
      [intros ts'; apply merge_fields_again | exact Hr |].
    exists 0%Z, s1, s2, r1, r2. auto 10.
  - pose proof (save_insert s c true Hf Ht) as Hs. cbv zeta in Hs.
    set (r1 := set_id (next_id (committed s)) (with_defaults (new_row c ts))) in *.
    set (s1 := mkSt _ _ _) in Hs.
    assert (Hf1 : find (key_is (get_unique_key c)) (committed s1) = Some r1).
    { cbn [committed s1]. rewrite find_app_none by exact Hf.
      subst r1. now rewrite key_is_new_row. }
    destruct (@save_again s1 c r1 Hf1) as (s2 & r2 & H2 & Hf2 & Hsame & Hall);
      [intros ts'; apply merge_fields_inserted | exact Hr |].
    exists 1%Z, s1, s2, r1, r2. auto 10.
Qed.

(** *** Batches *)

Lemma key_in_app (k : str) (t : table) (x : ElectricianDB) :
  key_in k (t ++ [x]) = key_in k t || key_is k x.
Proof.
  unfold key_in. rewrite existsb_app. simpl. now rewrite orb_false_r.
Qed.

Lemma key_in_replace_first (k k0 : str) (r r' : ElectricianDB) (t : table) :
  find (key_is k0) t = Some r ->
  unique_key r' = unique_key r ->
  key_in k (replace_first k0 r' t) = key_in k t.
Proof.
  intros Hf Hk. unfold key_in.
  induction t as [| a t IH]; simpl in *; [discriminate |].
  destruct (key_is k0 a).
  - inversion Hf; subst a. simpl. now rewrite (@key_is_same_key k r r' Hk).
  - simpl. now rewrite IH.
Qed.

Lemma new_keys_ext (t t' : table) (es : list Electrician) :
  (forall k, key_in k t' = key_in k t) -> new_keys t' es = new_keys t es.
Proof.
  intros H. unfold new_keys. f_equal. apply filter_ext.
  intros k. now rewrite H.
Qed.

Lemma new_keys_cons_old (t : table) (e : Electrician) (es : list Electrician) :
  key_in (get_unique_key e) t = true ->
  new_keys t (e :: es) = new_keys t es.
Proof.
  intros H. unfold new_keys. simpl. now rewrite H.
Qed.

(** A key the table lacks is counted once, however often the rest of
    the batch repeats it. *)
Lemma new_keys_cons_new (t : table) (x : ElectricianDB) (e : Electrician)
      (es : list Electrician) :
  key_in (get_unique_key e) t = false ->
  unique_key x = Some (get_unique_key e) ->
  length (new_keys t (e :: es)) = S (length (new_keys (t ++ [x]) es)).
Proof.
  intros Hnew Hx. unfold new_keys. cbn [map filter]. rewrite Hnew. cbn [negb].
  set (k := get_unique_key e). set (ks := map get_unique_key es).
  change (S (length ?l)) with (length (k :: l)).
  apply Permutation_length, NoDup_Permutation.
  - apply NoDup_nodup.
  - constructor; [| apply NoDup_nodup].
    rewrite nodup_In, filter_In, key_in_app. intros [_ H].
    unfold key_is in H. rewrite Hx, str_eqb_refl, orb_true_r in H.
    discriminate.
  - intros y. rewrite nodup_In. cbn [In]. rewrite nodup_In, !filter_In.
    rewrite key_in_app. unfold key_is. rewrite Hx. fold k.
    destruct (str_eq_dec k y) as [-> | Hne].
    + tauto.
    + assert (E : str_eqb k y = false).
      { destruct (str_eqb k y) eqn:E; [| reflexivity].
        apply str_eqb_eq in E. contradiction. }
      rewrite E, orb_false_r. tauto.
Qed.

Lemma new_keys_all_old (t : table) (es : list Electrician) :
  forallb (fun e => key_in (get_unique_key e) t) es = true ->
  new_keys t es = [].
Proof.
  induction es as [| e es IH]; simpl; intros H; [reflexivity |].
  apply andb_prop in H as [He Hes].
  rewrite new_keys_cons_old by exact He. now apply IH.
Qed.

(** The loop, on a batch of readable candidates: it ends normally, and
    the count and the table grow by the number of new keys. *)
Lemma process_count (flag : bool) (es : list Electrician) :
  forall (n : Z) (s : St),
    Forall (fun e => readable e = true) es ->
    exists s',
      process flag es n s
        = (Ok (n + Z.of_nat (length (new_keys (txn s) es)))%Z, s') /\
      length (txn s') = length (txn s) + length (new_keys (txn s) es).
Proof.
  induction es as [| e es IH]; intros n s Hall.
  - exists s. cbn. unfold ret. split; [f_equal; f_equal; lia | lia].
  - inversion Hall as [| ? ? He Hes]; subst.
    cbn [Storage.process]. unfold bind.
    destruct (readable_timestamp e (clock s) He) as (ts0 & ck0 & Ht0).
    destruct (upsert_cases flag e n s)
      as [ts ck' Hf Ht | r ts ck' _ Hf Ht | r _ Hf | Ht _].
    + (* insert *)
      set (x := set_id (next_id (txn s)) (with_defaults (new_row e ts))).
      destruct (IH (n + 1)%Z (mkSt (committed s) (txn s ++ [x]) ck') Hes)
        as (s' & Hp & Hl).
      cbn [txn] in Hp, Hl.
      assert (Hnew : key_in (get_unique_key e) (txn s) = false)
        by (now rewrite key_in_find, Hf).
      pose proof (@new_keys_cons_new (txn s) x e es Hnew eq_refl) as Hc.
      exists s'. split.
      * rewrite Hp. f_equal. f_equal. lia.
      * rewrite Hl, length_app. cbn [length]. lia.
    + (* update *)
      set (r' := set_scraped_at (clock_reading ck')
                   (merge_fields r (new_row e ts))).
      assert (Hk : unique_key r' = unique_key r).
      { pose proof (merge_fields_frame r (new_row e ts)) as F.
        subst r'. cbn in *. tauto. }
      destruct (IH n (mkSt (committed s)
                        (replace_first (get_unique_key e) r' (txn s)) (S ck')) Hes)
        as (s' & Hp & Hl).
      cbn [txn] in Hp, Hl.
      rewrite replace_first_length in Hl.
      rewrite (@new_keys_ext (txn s)) in Hp, Hl
        by (intros k; now apply key_in_replace_first with (r := r)).
      rewrite new_keys_cons_old by (now rewrite key_in_find, Hf).
      exists s'. now split.
    + (* left as it is *)
      destruct (IH n s Hes) as (s' & Hp & Hl).
      rewrite new_keys_cons_old by (now rewrite key_in_find, Hf).
      exists s'. now split.
    + congruence.
Qed.

(** C5.  On a batch of readable candidates [save_to_database] returns
    the number of records it has inserted: the number of distinct
    identity keys of the batch that the database did not hold, which is
    also the number of rows the table has gained.  A batch whose keys
    the database all holds returns 0. *)
Theorem batch_insertion_count :
  forall (es : list Electrician) (flag : bool) (s : St),
    Forall (fun e => readable e = true) es ->
    exists s',
      save_to_database es flag s
        = (Ok (Z.of_nat (length (new_keys (committed s) es))), s') /\
      length (committed s')
        = length (committed s) + length (new_keys (committed s) es) /\
      (forallb (fun e => key_in (get_unique_key e) (committed s)) es = true ->
       save_to_database es flag s = (Ok 0%Z, s')).
Proof.
  intros es flag s Hall.
  destruct (process_count flag 0%Z
              (mkSt (committed s) (committed s) (clock s)) Hall)
    as (s1 & Hp & Hl).
  cbn [txn] in Hp, Hl.
  rewrite save_to_database_run, Hp.
  eexists. split; [reflexivity |]. split; [exact Hl |].
  intros Hold. now rewrite (new_keys_all_old _ _ Hold).
Qed.

(** The batch is worked through in order: a batch in two parts is the
    first part, then the second on what the first has left. *)
Lemma process_app (flag : bool) (es1 es2 : list Electrician) :
  forall (n : Z) (s : St),
    process flag (es1 ++ es2) n s =
    match process flag es1 n s with
    | (Ok n', s') => process flag es2 n' s'
    | (Raise x, s') => (Raise x, s')
    end.
Proof.
  induction es1 as [| e es1 IH]; intros n s; [reflexivity |].
  cbn [app Storage.process]. unfold bind.
  destruct (upsert flag e n s) as [[n' | x] s1]; [apply IH | reflexivity].
Qed.

End StorageFacts.

(* ================================================================== *)
(** * The theorems at work *)

Module Runs.
Import Storage Scenario.

(** C9 at work: [Surat, Gujarat] and [SURAT, gujarat] give one key, and
  so do two candidates of different names. *)
Lemma get_unique_key_witness :
Models.phone patel_renamed = Models.phone (candidate (lit "Other")
                               (lit "9825012345") (lit "Surat")
                               (lit "Gujarat") [] true) /\
get_unique_key patel_renamed
= get_unique_key (candidate (lit "Other") (lit "9825012345") (lit "Surat")
                            (lit "Gujarat") [] true).
Proof.
split; [reflexivity |].
apply (proj2 get_unique_key_deterministic_case_insensitive).
- reflexivity.
- repeat (constructor;
          [first [ left; reflexivity
                 | right; left; split; reflexivity
                 | right; right; split; reflexivity ] |]).
  constructor.
- repeat (constructor;
          [first [ left; reflexivity
                 | right; left; split; reflexivity
                 | right; right; split; reflexivity ] |]).
  constructor.
Defined.

(** C1 at work (scenario D): the verified record of Patel Electric, and
  a candidate of another name for it that is not verified. *)
Lemma verified_is_monotonic_witness :
find (key_is (get_unique_key patel_renamed))
     (committed (database [patel_row; shah_row])) = Some patel_row /\
verified patel_row = true /\
Models.verified patel_renamed = false /\
exists r',
  find (key_is (get_unique_key patel_renamed))
       (committed (snd (save_to_database [patel_renamed] true
                          (database [patel_row; shah_row])))) = Some r' /\
  verified r' = true /\
  verified_by r' = verified_by patel_row /\
  verified_at r' = verified_at patel_row.
Proof.
split; [reflexivity |]. split; [reflexivity |]. split; [reflexivity |].
apply verified_is_monotonic; reflexivity.
Defined.

(** C2 at work: scenario A, twice. *)
Lemma upsert_twice_is_idempotent_witness :
readable patel = true /\
exists n1 s1 s2 r1 r2,
  save_to_database [patel] true (database []) = (Ok n1, s1) /\
  save_to_database [patel] true s1 = (Ok 0%Z, s2) /\
  find (key_is (get_unique_key patel)) (committed s1) = Some r1 /\
  find (key_is (get_unique_key patel)) (committed s2) = Some r2 /\
  same_but_scraped_at r1 r2 /\
  Forall2 same_but_scraped_at (committed s1) (committed s2).
Proof.
split; [reflexivity |].
apply upsert_twice_is_idempotent; reflexivity.
Defined.

(** C3 at work: the candidate with five digits for a phone. *)
Lemma no_candidate_is_rejected_witness :
readable short_phone = true /\
exists s' r,
  save_to_database [short_phone] true (database [patel_row]) =
    (Ok (if key_in (get_unique_key short_phone)
                   (committed (database [patel_row]))
         then 0 else 1)%Z, s') /\
  find (key_is (get_unique_key short_phone)) (committed s') = Some r.
Proof.
split; [reflexivity |].
apply no_candidate_is_rejected; reflexivity.
Defined.

(** C3 as stated fails: neither [12345] nor [9999999999] is a valid
  number for [is_valid_phone], and the first yields no number at all;
  both candidates are inserted. *)
Lemma invalid_phones_are_stored :
_extract_phone_numbers (Models.phone short_phone) = [] /\
extract_indian_phone (Models.phone short_phone) = [] /\
is_valid_phone (Models.phone short_phone) = false /\
is_valid_phone (Models.phone nines) = false /\
exists s',
  save_to_database [short_phone; nines] true (database []) = (Ok 2%Z, s') /\
  map unique_key (committed s')
    = [Some (lit "12345_surat_gujarat"); Some (lit "9999999999_surat_gujarat")] /\
  committed s' <> committed (database []).
Proof.
repeat (split; [vm_compute; reflexivity |]).
eexists. split; [vm_compute; reflexivity |].
split; [vm_compute; reflexivity |]. discriminate.
Qed.

(** C5 at work: five candidates, three of them for the two records of
  the database, two with keys of their own. *)
Lemma batch_insertion_count_witness :
Forall (fun e => readable e = true)
       [patel_renamed; shah; patel; mehta; short_phone] /\
exists s',
  save_to_database [patel_renamed; shah; patel; mehta; short_phone] true
                   (database [patel_row; shah_row])
    = (Ok (Z.of_nat (length (new_keys (committed (database [patel_row; shah_row]))
                                      [patel_renamed; shah; patel; mehta;
                                       short_phone]))), s') /\
  length (committed s')
    = length (committed (database [patel_row; shah_row]))
      + length (new_keys (committed (database [patel_row; shah_row]))
                         [patel_renamed; shah; patel; mehta; short_phone]) /\
  (forallb (fun e => key_in (get_unique_key e)
                            (committed (database [patel_row; shah_row])))
           [patel_renamed; shah; patel; mehta; short_phone] = true ->
   save_to_database [patel_renamed; shah; patel; mehta; short_phone] true
                    (database [patel_row; shah_row]) = (Ok 0%Z, s')).
Proof.
assert (H : Forall (fun e => readable e = true)
                   [patel_renamed; shah; patel; mehta; short_phone])
  by (repeat constructor).
split; [exact H |].
apply batch_insertion_count. exact H.
Defined.

(** The batch of five reports two new records; a batch of updates
  alone reports none. *)
Lemma batch_of_five_counts_two :
fst (save_to_database [patel_renamed; shah; patel; mehta; short_phone] true
                      (database [patel_row; shah_row])) = Ok 2%Z /\
fst (save_to_database [patel_renamed; shah; patel] true
                      (database [patel_row; shah_row])) = Ok 0%Z /\
fst (save_to_database [mehta; mehta; mehta] true (database [])) = Ok 1%Z.
Proof.
repeat split; vm_compute; reflexivity.
Qed.

(** C6 at work (scenario B): the candidate brings a name and an
  address; its rating of zero and its absent fields are not applied. *)
Lemma update_writes_only_listed_fields_witness :
find (key_is (get_unique_key patel_renamed))
     (committed (database [patel_row; shah_row])) = Some patel_row /\
readable patel_renamed = true /\
exists s' r',
  save_to_database [patel_renamed] true (database [patel_row; shah_row])
    = (Ok 0%Z, s') /\
  find (key_is (get_unique_key patel_renamed)) (committed s') = Some r' /\
  name r' = lit "Patel Electricals" /\
  address r' = Some (lit "Ring Road") /\
  rating r' = Some 4.5%float /\
  review_count r' = Some 12%Z /\
  verified r' = true.
Proof.
split; [reflexivity |]. split; [reflexivity |].
destruct (@update_writes_only_listed_fields PyLib.fromisoformat
            PyLib.json_dumps PyLib.clock_reading
            (database [patel_row; shah_row]) patel_renamed patel_row
            eq_refl eq_refl)
  as (s' & r' & Hs & Hf & _ & Hn & Ha & Hr & Hc & _ & _ & _ & _ & _ & _ & _
      & _ & _ & _ & _ & _ & Hv & _).
exists s', r'. repeat split; assumption.
Defined.

(** C8 at work: scenario A on an empty database. *)
Lemma insert_copies_candidate_witness :
find (key_is (get_unique_key patel)) (committed (database [])) = None /\
readable patel = true /\
exists s' ts,
  save_to_database [patel] true (database []) = (Ok 1%Z, s') /\
  map name (committed s') = [lit "Patel Electric"] /\
  map verified (committed s') = [false] /\
  map rating (committed s') = [None] /\
  map scraped_at (committed s') = [ts] /\
  ts = mkDatetime 2024 3 9 10 11 12 0.
Proof.
split; [reflexivity |]. split; [reflexivity |].
destruct (@insert_copies_candidate PyLib.fromisoformat PyLib.json_dumps
            PyLib.clock_reading (database []) patel true eq_refl eq_refl)
  as (s' & ts & Hs & Hc & _ & Hts).
exists s', ts. split; [exact Hs |]. rewrite Hc.
repeat split. apply Hts; [discriminate | reflexivity].
Defined.

(** C8 as stated fails: the row inserted for scenario A carries the
  candidate's timestamp of 2024, which no reading of the clock gives. *)
Lemma inserted_timestamp_is_the_candidates :
find (key_is (get_unique_key patel)) (committed (database [])) = None /\
exists s' row,
  save_to_database [patel] true (database []) = (Ok 1%Z, s') /\
  committed s' = [row] /\
  scraped_at row = mkDatetime 2024 3 9 10 11 12 0 /\
  forall n, scraped_at row <> PyLib.clock_reading n.
Proof.
split; [reflexivity |].
eexists. eexists. split; [vm_compute; reflexivity |].
split; [reflexivity |]. split; [reflexivity |].
intros n H. discriminate H.
Qed.

(** C10 at work: the second candidate of the batch has no readable
  timestamp; the first, already added in the session, is not kept. *)
Lemma failed_batch_is_rolled_back_witness :
process true [patel; undated] 0%Z
        (mkSt (committed (database [])) (committed (database []))
              (clock (database [])))
  = (Raise (ValueError (lit "yesterday")),
     mkSt [] [mkRow 1 (lit "Patel Electric") (lit "+91 98250 12345")
                (lit "Surat") (lit "Gujarat") None None None None None None
                None None None (lit "justdial") None false
                (mkDatetime 2024 3 9 10 11 12 0)
                (Some (lit "9825012345_surat_gujarat"))
                None None (Some 0%Z) None None None] 0) /\
exists s',
  save_to_database [patel; undated] true (database [])
    = (Raise (ValueError (lit "yesterday")), s') /\
  committed s' = committed (database []) /\
  txn s' = committed (database []).
Proof.
assert (H : process true [patel; undated] 0%Z
              (mkSt (committed (database [])) (committed (database []))
                    (clock (database [])))
            = (Raise (ValueError (lit "yesterday")),
               mkSt [] [mkRow 1 (lit "Patel Electric") (lit "+91 98250 12345")
                          (lit "Surat") (lit "Gujarat") None None None None
                          None None None None None (lit "justdial") None false
                          (mkDatetime 2024 3 9 10 11 12 0)
                          (Some (lit "9825012345_surat_gujarat"))
                          None None (Some 0%Z) None None None] 0))
  by (vm_compute; reflexivity).
split; [exact H |].
eapply failed_batch_is_rolled_back. exact H.
Defined.

End Runs.

(* ================================================================== *)
(** * Further properties *)

(** ** What the extractors return *)

(** Every result of [findall] is a word of the pattern and a piece of
    the text. *)
Lemma findall_from_sound (p : pattern) :
  forall s skip m,
    In m (findall_from p skip s) ->
    accepts p m /\ exists a r, s = a ++ m ++ r.
Proof.
  induction s as [| c s IH]; intros skip m H; simpl in H; [contradiction |].
  assert (K : forall k, In m (findall_from p k s) ->
                        accepts p m /\ exists a r, c :: s = a ++ m ++ r).
  { intros k Hk. destruct (IH _ _ Hk) as (Ha & a & r & ->).
    split; [exact Ha |]. now exists (c :: a), r. }
  destruct skip as [| k]; [| now apply K with k].
  destruct (match_here p (c :: s)) as [[m0 r0] |] eqn:Hm.
  - destruct H as [<- | H]; [| now apply K with (length m0 - 1)].
    destruct (match_here_accepts _ _ Hm) as [E Ha].
    split; [exact Ha |]. now exists [], r0.
  - now apply K with 0.
Qed.

Lemma isdigit_decimal_or (c : ascii) :
  sep c = true \/ chr "+" c = true \/ digit c = true ->
  isdigit c = is_decimal c.
Proof.
  destruct c as [[] [] [] [] [] [] [] []]; vm_compute;
    intros [H | [H | H]]; first [reflexivity | discriminate H].
Qed.

Lemma starts_6789_d69 (c : ascii) (s : str) : starts_6789 (c :: s) = d69 c.
Proof.
  destruct c as [[] [] [] [] [] [] [] []]; vm_compute; reflexivity.
Qed.

Ltac run_filter :=
  repeat (progress (cbn [filter digits_of strip_non_decimal];
                    class_eval; class_hyps)).

(** A word of one of the five patterns ends in ten digits that begin
    with 6, 7, 8 or 9, and holds decimal digits only. *)
Lemma pattern_word_valid (p : pattern) (m : str) :
  In p patterns -> accepts p m ->
  10 <= length (digits_of m) /\
  valid_mobile (last_n 10 (digits_of m)) = true /\
  digits_of m = strip_non_decimal m.
Proof.
  intros Hp Ha.
  unfold patterns in Hp. cbn [In] in Hp.
  destruct Hp as [<- | [<- | [<- | [<- | [<- | []]]]]].
  all: unfold pat_plus91, pat_91, pat_0, pat_plain, pat_mid in Ha.
  all: split_word Ha.
  all: word_facts.
  all: run_filter.
  all: split; [cbn; lia |].
  all: split; [| reflexivity].
  all: unfold valid_mobile; cbn [last_n length skipn Nat.sub forallb Nat.eqb];
    class_hyps; reflexivity.
Qed.

Lemma findall_sound (p : pattern) (text m : str) :
  In m (findall p text) -> accepts p m /\ exists a r, text = a ++ m ++ r.
Proof.
  apply findall_from_sound.
Qed.

Lemma matches_sound (text m : str) :
  In m (matches text) ->
  exists p, In p patterns /\ accepts p m /\ exists a r, text = a ++ m ++ r.
Proof.
  unfold matches. rewrite in_flat_map. intros (p & Hp & Hm).
  exists p. split; [exact Hp |]. now apply findall_sound.
Qed.

Lemma in_normalize (phones : list str) (ph : str) :
  In ph (normalize phones) <->
  exists m, In m phones /\ 10 <= length (digits_of m)
            /\ ph = last_n 10 (digits_of m).
Proof.
  unfold normalize. rewrite in_flat_map. split.
  - intros (m & Hm & H). exists m. split; [exact Hm |].
    destruct (10 <=? length (digits_of m)) eqn:E; [| contradiction].
    apply Nat.leb_le in E. destruct H as [<- | []]. now split.
  - intros (m & Hm & Hl & ->). exists m. split; [exact Hm |].
    apply Nat.leb_le in Hl. rewrite Hl. now left.
Qed.

(** X1.  Whatever the text, [_extract_phone_numbers] returns each number
    once, and every number it returns is ten decimal digits of which the
    first is 6, 7, 8 or 9. *)
Theorem extract_phone_numbers_valid :
  forall text : str,
    NoDup (_extract_phone_numbers text) /\
    forall ph, In ph (_extract_phone_numbers text) -> valid_mobile ph = true.
Proof.
  intros text. split; [apply NoDup_nodup |].
  intros ph. unfold _extract_phone_numbers. rewrite nodup_In, in_normalize.
  intros (m & Hm & _ & ->).
  destruct (matches_sound _ _ Hm) as (p & Hp & Ha & _).
  now destruct (pattern_word_valid _ Hp Ha) as (_ & H & _).
Qed.

Lemma extract_phone_numbers_valid_witness :
  In (lit "9825012345") (_extract_phone_numbers (lit "Ph: 098250-12345")) /\
  valid_mobile (lit "9825012345") = true.
Proof.
  assert (H : In (lit "9825012345")
                 (_extract_phone_numbers (lit "Ph: 098250-12345")))
    by (vm_compute; auto).
  split; [exact H |].
  exact (proj2 (extract_phone_numbers_valid (lit "Ph: 098250-12345")) _ H).
Defined.

Lemma valid_mobile_starts (ph : str) :
  valid_mobile ph = true -> starts_6789 ph = true.
Proof.
  unfold valid_mobile. intros H.
  apply andb_prop in H as [H _]. apply andb_prop in H as [_ H].
  destruct ph as [| c ph]; [discriminate |]. now rewrite starts_6789_d69.
Qed.

Lemma valid_mobile_length (ph : str) : valid_mobile ph = true -> length ph = 10.
Proof.
  unfold valid_mobile. intros H.
  apply andb_prop in H as [H _]. apply andb_prop in H as [H _].
  now apply Nat.eqb_eq.
Qed.

(** X2.  [extract_indian_phone] of scrape_surat_verified.py returns the
    same numbers as [_extract_phone_numbers]: its test of the first digit
    never refuses a number. *)
Theorem extract_indian_phone_same_numbers :
  forall (text ph : str),
    In ph (extract_indian_phone text) <-> In ph (_extract_phone_numbers text).
Proof.
  intros text ph.
  unfold extract_indian_phone, _extract_phone_numbers.
  rewrite !nodup_In, in_normalize, in_flat_map.
  split.
  - intros (m & Hm & H). exists m. split; [exact Hm |].
    destruct (matches_sound _ _ Hm) as (p & Hp & Ha & _).
    destruct (pattern_word_valid _ Hp Ha) as (Hl & _ & E).
    rewrite <- E in H. split; [exact Hl |].
    apply Nat.leb_le in Hl. rewrite Hl in H.
    destruct (starts_6789 (last_n 10 (digits_of m))); [| contradiction].
    now destruct H as [<- | []].
  - intros (m & Hm & Hl & ->). exists m. split; [exact Hm |].
    destruct (matches_sound _ _ Hm) as (p & Hp & Ha & _).
    destruct (pattern_word_valid _ Hp Ha) as (_ & Hv & E).
    rewrite <- E. apply Nat.leb_le in Hl. rewrite Hl.
    rewrite (valid_mobile_starts _ Hv). now left.
Qed.

(** X3.  Every number that [extract_phone] of quick_verified_scrape.py
    returns is also returned by [_extract_phone_numbers] for the same
    text, and passes [is_valid_phone]. *)
Theorem extract_phone_within_base :
  forall (text ph : str),
    In ph (extract_phone text) ->
    In ph (_extract_phone_numbers text) /\ is_valid_phone ph = true.
Proof.
  intros text ph. unfold extract_phone, _extract_phone_numbers.
  rewrite !nodup_In, in_normalize, in_flat_map.
  intros (m & Hm & H).
  assert (Hm' : In m (matches text)).
  { unfold matches. rewrite in_flat_map in *.
    destruct Hm as (p & Hp & Hpm). exists p. split; [| exact Hpm].
    unfold patterns. cbn [In] in *. intuition. }
  destruct (matches_sound _ _ Hm') as (p & Hp & Ha & _).
  destruct (pattern_word_valid _ Hp Ha) as (Hl & Hv & E).
  rewrite <- E in H.
  destruct ((length (last_n 10 (digits_of m)) =? 10)
            && starts_6789 (last_n 10 (digits_of m))
            && (4 <=? distinct_chars (last_n 10 (digits_of m)))) eqn:T;
    [| contradiction].
  destruct H as [<- | []].
  apply andb_prop in T as [T T3]. apply andb_prop in T as [T1 T2].
  split.
  - exists m. auto.
  - unfold is_valid_phone. rewrite T1, T2. cbn [negb].
    apply Nat.leb_le in T3.
    destruct (distinct_chars (last_n 10 (digits_of m)) <? 4) eqn:L;
      [apply Nat.ltb_lt in L; lia | reflexivity].
Qed.

Lemma extract_phone_within_base_witness :
  In (lit "9825012345") (extract_phone (lit "98250 12345, 9999999999")) /\
  In (lit "9825012345")
     (_extract_phone_numbers (lit "98250 12345, 9999999999")) /\
  is_valid_phone (lit "9825012345") = true.
Proof.
  assert (H : In (lit "9825012345")
                 (extract_phone (lit "98250 12345, 9999999999")))
    by (vm_compute; auto).
  split; [exact H |].
  exact (extract_phone_within_base _ _ H).
Defined.

Lemma strip_non_decimal_app (a b : str) :
  strip_non_decimal (a ++ b) = strip_non_decimal a ++ strip_non_decimal b.
Proof.
  apply filter_app.
Qed.

(** X4.  A text with fewer than ten decimal digits, the empty text among
    them, yields no number: the result is the empty list. *)
Theorem extract_phone_numbers_too_few_digits :
  forall text : str,
    decimal_count text < 10 -> _extract_phone_numbers text = [].
Proof.
  intros text Hlt.
  destruct (_extract_phone_numbers text) as [| ph l] eqn:E; [reflexivity |].
  exfalso.
  assert (H : In ph (_extract_phone_numbers text)) by (rewrite E; now left).
  unfold _extract_phone_numbers in H. rewrite nodup_In, in_normalize in H.
  destruct H as (m & Hm & _ & _).
  destruct (matches_sound _ _ Hm) as (p & Hp & Ha & a & r & ->).
  destruct (pattern_word_valid _ Hp Ha) as (Hl & _ & Ed).
  unfold decimal_count in Hlt.
  rewrite !strip_non_decimal_app, !length_app, <- Ed in Hlt. lia.
Qed.

Lemma extract_phone_numbers_too_few_digits_witness :
  decimal_count (lit "Call 98250 1234 today") < 10 /\
  _extract_phone_numbers (lit "Call 98250 1234 today") = [].
Proof.
  assert (H : decimal_count (lit "Call 98250 1234 today") < 10)
    by (vm_compute; lia).
  split; [exact H |].
  exact (extract_phone_numbers_too_few_digits _ H).
Defined.


(** ** Identity keys and the ways of writing a number *)

Lemma last_n_app_exact (a n : str) : length n = 10 -> last_n 10 (a ++ n) = n.
Proof.
  intros H. unfold last_n. rewrite length_app, H.
  replace (length a + 10 - 10) with (length a + 0) by lia.
  rewrite skipn_app, Nat.add_0_r, skipn_all.
  replace (length a - length a) with 0 by lia. reflexivity.
Qed.

(** X5.  The identity key does not depend on how the number is written:
    with [+91], [91] or a leading [0] before it or not, with a space or
    dash after the country code or the fifth digit or not, a valid number
    gives the key of its ten digits. *)
Theorem unique_key_of_written_number :
  forall (e : Electrician) (p : prefix) (mid : option ascii) (n : str),
    valid_mobile n = true ->
    prefix_ok p = true ->
    sep_ok mid = true ->
    Models.phone e = written p mid n ->
    get_unique_key e
    = n ++ lit "_" ++ lower (Models.city e) ++ lit "_" ++ lower (Models.state e).
Proof.
  intros e p mid n Hn Hp Hmid Hph.
  unfold get_unique_key. rewrite Hph. f_equal.
  unfold valid_mobile in Hn.
  apply andb_prop in Hn as [Hn Hall]. apply andb_prop in Hn as [Hlen Hfirst].
  apply Nat.eqb_eq in Hlen.
  do 10 (destruct n as [| ? n]; [discriminate Hlen |]).
  destruct n; [| discriminate Hlen]. clear Hlen.
  cbn [forallb] in Hall.
  repeat match type of Hall with
         | (_ && _) = true =>
             let H := fresh "Hd" in apply andb_prop in Hall as [H Hall]
         end.
  clear Hall.
  repeat match goal with
         | H : digit ?c = true |- _ =>
             lazymatch goal with
             | _ : isdigit c = true |- _ => fail
             | _ => digit_facts H
             end
         end.
  destruct mid as [c |]; [cbn [sep_ok] in Hmid; sep_facts Hmid |];
    (destruct p as [| [] [sc |] |];
     [ | cbn [prefix_ok sep_ok] in Hp; sep_facts Hp
       | | cbn [prefix_ok sep_ok] in Hp; sep_facts Hp | | ]);
    unfold written;
    cbn [prefix_text opt_char firstn skipn app lit String.list_ascii_of_string];
    run_filter; reflexivity.
Qed.

Lemma unique_key_of_written_number_witness :
  valid_mobile (lit "9825012345") = true /\
  prefix_ok (CountryCode true (Some " "%char)) = true /\
  sep_ok (Some " "%char) = true /\
  Models.phone Scenario.patel
    = written (CountryCode true (Some " "%char)) (Some " "%char)
              (lit "9825012345") /\
  get_unique_key Scenario.patel = lit "9825012345_surat_gujarat".
Proof.
  repeat (split; [reflexivity |]).
  exact (@unique_key_of_written_number Scenario.patel
           (CountryCode true (Some " "%char)) (Some " "%char)
           (lit "9825012345") eq_refl eq_refl eq_refl eq_refl).
Defined.

Lemma digits_split (a b x y : str) :
  forallb isdigit a = true -> forallb isdigit b = true ->
  a ++ lit "_" ++ x = b ++ lit "_" ++ y -> a = b /\ x = y.
Proof.
  revert b. induction a as [| c a IH]; intros [| d b] Ha Hb H; cbn in *.
  - inversion H. auto.
  - inversion H; subst d. apply andb_prop in Hb as [Hb _]. discriminate Hb.
  - inversion H; subst c. apply andb_prop in Ha as [Ha _]. discriminate Ha.
  - inversion H; subst d.
    apply andb_prop in Ha as [_ Ha]. apply andb_prop in Hb as [_ Hb].
    destruct (IH b Ha Hb H2) as [-> ->]. auto.
Qed.

Lemma last_n_digits (n : nat) (s : str) :
  forallb isdigit (last_n n (digits_of s)) = true.
Proof.
  apply forallb_forall. intros c Hc. unfold last_n in Hc.
  assert (H : In c (digits_of s)).
  { rewrite <- (firstn_skipn (length (digits_of s) - n) (digits_of s)).
    apply in_or_app. now right. }
  unfold digits_of in H. now apply filter_In in H.
Qed.

Lemma lower_char_underscore (c : ascii) :
  lower_char c = "_"%char -> c = "_"%char.
Proof.
  destruct c as [[] [] [] [] [] [] [] []]; vm_compute; congruence.
Qed.

Lemma no_underscore_split (a b x y : str) :
  ~ In "_"%char a -> ~ In "_"%char b ->
  a ++ lit "_" ++ x = b ++ lit "_" ++ y -> a = b /\ x = y.
Proof.
  revert b. induction a as [| c a IH]; intros [| d b] Ha Hb H; cbn in *.
  - inversion H. auto.
  - inversion H; subst d. tauto.
  - inversion H; subst c. tauto.
  - inversion H; subst d.
    destruct (IH b) as [-> ->]; [tauto | tauto | exact H2 | auto].
Qed.

Lemma lower_no_underscore (s : str) :
  ~ In "_"%char s -> ~ In "_"%char (lower s).
Proof.
  intros H Hin. unfold lower in Hin. apply in_map_iff in Hin as (c & Hc & Hin).
  apply lower_char_underscore in Hc. now subst c.
Qed.

(** X6.  Candidates are merged only within one phone number: two
    candidates of equal identity keys agree in the last ten digits of
    their phones.  Where the city names hold no underscore, they also
    agree in city and in state, letter case apart. *)
Theorem same_key_same_phone :
  forall e1 e2 : Electrician,
    get_unique_key e1 = get_unique_key e2 ->
    last_n 10 (digits_of (Models.phone e1))
    = last_n 10 (digits_of (Models.phone e2)) /\
    (~ In "_"%char (Models.city e1) -> ~ In "_"%char (Models.city e2) ->
     lower (Models.city e1) = lower (Models.city e2) /\
     lower (Models.state e1) = lower (Models.state e2)).
Proof.
  intros e1 e2 H. unfold get_unique_key in H.
  apply digits_split in H as [Hp Hrest]; try apply last_n_digits.
  split; [exact Hp |]. intros H1 H2.
  apply no_underscore_split in Hrest; auto using lower_no_underscore.
Qed.

Lemma same_key_same_phone_witness :
  get_unique_key Scenario.patel = get_unique_key Scenario.patel_renamed /\
  last_n 10 (digits_of (Models.phone Scenario.patel))
  = last_n 10 (digits_of (Models.phone Scenario.patel_renamed)) /\
  lower (Models.city Scenario.patel) = lower (Models.city Scenario.patel_renamed).
Proof.
  assert (H : get_unique_key Scenario.patel
              = get_unique_key Scenario.patel_renamed) by reflexivity.
  split; [exact H |].
  destruct (same_key_same_phone _ _ H) as [Hp Hc].
  split; [exact Hp |].
  apply Hc; vm_compute; intuition discriminate.
Defined.


(** ** The table under [save_to_database] *)

Section StorageMore.
Import Storage.

Variable fromisoformat : str -> option datetime.
Variable json_dumps : list str -> str.
Variable clock_reading : nat -> datetime.

Local Abbreviation new_row := (Storage.new_row json_dumps).
Local Abbreviation readable := (Storage.readable fromisoformat).
Local Abbreviation timestamp := (Storage.timestamp fromisoformat clock_reading).
Local Abbreviation upsert := (Storage.upsert fromisoformat json_dumps clock_reading).
Local Abbreviation process := (Storage.process fromisoformat json_dumps clock_reading).
Local Abbreviation save_to_database :=
  (Storage.save_to_database fromisoformat json_dumps clock_reading).
Local Abbreviation upsert_cases :=
  (upsert_cases fromisoformat json_dumps clock_reading).
Local Abbreviation save_to_database_run :=
  (save_to_database_run fromisoformat json_dumps clock_reading).

(** A property of tables that every turn of the loop keeps is kept by
    the whole call, whatever the batch and however the call ends. *)
Lemma save_invariant (P : table -> table -> Prop) :
  (forall t, P t t) ->
  (forall t1 t2 t3, P t1 t2 -> P t2 t3 -> P t1 t3) ->
  (forall flag e n s, P (txn s) (txn (snd (upsert flag e n s)))) ->
  forall es flag s,
    P (committed s) (committed (snd (save_to_database es flag s))).
Proof.
  intros Hrefl Htrans Hstep es flag s.
  assert (Hp : forall es n s0, P (txn s0) (txn (snd (process flag es n s0)))).
  { clear es s. induction es as [| e es IH]; intros n s0; [apply Hrefl |].
    cbn [Storage.process]. unfold bind.
    pose proof (Hstep flag e n s0) as Hu.
    destruct (upsert flag e n s0) as [[n' | x] s1]; cbn [snd] in *.
    - eapply Htrans; [exact Hu | apply IH].
    - exact Hu. }
  rewrite save_to_database_run.
  specialize (Hp es 0%Z (mkSt (committed s) (committed s) (clock s))).
  destruct (process flag es 0%Z _) as [[n | x] s1]; cbn [snd txn committed] in *.
  - exact Hp.
  - apply Hrefl.
Qed.

Lemma keys_of_app (t1 t2 : table) : keys_of (t1 ++ t2) = keys_of t1 ++ keys_of t2.
Proof.
  apply flat_map_app.
Qed.

Lemma find_none_not_key (k : str) (t : table) :
  find (key_is k) t = None -> ~ In k (keys_of t).
Proof.
  induction t as [| r t IH]; simpl; [tauto |].
  unfold key_is at 1. destruct (unique_key r) as [k' |] eqn:E.
  - destruct (str_eqb k' k) eqn:Ek; [discriminate |].
    intros Hf [Hin | Hin].
    + subst k'. now rewrite str_eqb_refl in Ek.
    + now apply IH.
  - exact IH.
Qed.

Lemma keys_of_replace_first (k : str) (r r' : ElectricianDB) (t : table) :
  find (key_is k) t = Some r ->
  unique_key r' = unique_key r ->
  keys_of (replace_first k r' t) = keys_of t.
Proof.
  intros Hf Hk. induction t as [| a t IH]; simpl in *; [discriminate |].
  destruct (key_is k a).
  - inversion Hf; subst a. simpl. now rewrite Hk.
  - simpl. now rewrite IH.
Qed.

Lemma map_replace_first {B : Type} (f : ElectricianDB -> B) (k : str)
      (r r' : ElectricianDB) (t : table) :
  find (key_is k) t = Some r ->
  f r' = f r ->
  map f (replace_first k r' t) = map f t.
Proof.
  intros Hf Hk. induction t as [| a t IH]; simpl in *; [discriminate |].
  destruct (key_is k a).
  - inversion Hf; subst a. simpl. now rewrite Hk.
  - simpl. now rewrite IH.
Qed.

Lemma NoDup_snoc {A : Type} (l : list A) (x : A) :
  NoDup l -> ~ In x l -> NoDup (l ++ [x]).
Proof.
  induction 1 as [| a l Ha Hl IH]; simpl; intros Hx.
  - constructor; [tauto | constructor].
  - constructor.
    + rewrite in_app_iff. simpl. intuition congruence.
    + apply IH. tauto.
Qed.

(** X7.  The uniqueness of [unique_key] is an invariant of
    [save_to_database]: if no two stored rows share a key before the
    call, none do after it, for every batch, with or without
    [update_existing], and however the call ends. *)
Theorem save_keeps_keys_unique :
  forall (es : list Electrician) (flag : bool) (s : St),
    unique_keys (committed s) ->
    unique_keys (committed (snd (save_to_database es flag s))).
Proof.
  intros es flag s.
  apply (save_invariant (fun t t' => unique_keys t -> unique_keys t'));
    [tauto | tauto |].
  clear. intros flag e n s Hu.
  destruct (upsert_cases flag e n s) as [ts ck' Hf Ht | r ts ck' _ Hf Ht | |];
    cbn [snd txn]; try exact Hu.
  - unfold unique_keys. rewrite keys_of_app.
    apply NoDup_snoc; [exact Hu | now apply find_none_not_key].
  - unfold unique_keys.
    rewrite keys_of_replace_first with (r := r); [exact Hu | exact Hf |].
    pose proof (merge_fields_frame r (new_row e ts)) as F. cbn in *. tauto.
Qed.

Lemma id_below_next (t : table) (r : ElectricianDB) :
  In r t -> (id r < next_id t)%Z.
Proof.
  unfold next_id. induction t as [| a t IH]; cbn [In map fold_right]; [tauto |].
  intros [-> | H]; [lia |]. specialize (IH H). lia.
Qed.

(** X8.  The ids are an invariant too: rows of distinct ids before the
    call have distinct ids after it, the inserted rows included. *)
Theorem save_keeps_ids_unique :
  forall (es : list Electrician) (flag : bool) (s : St),
    unique_ids (committed s) ->
    unique_ids (committed (snd (save_to_database es flag s))).
Proof.
  intros es flag s.
  apply (save_invariant (fun t t' => unique_ids t -> unique_ids t'));
    [tauto | tauto |].
  clear. intros flag e n s Hu.
  destruct (upsert_cases flag e n s) as [ts ck' Hf Ht | r ts ck' _ Hf Ht | |];
    cbn [snd txn]; try exact Hu.
  - unfold unique_ids. rewrite map_app.
    apply NoDup_snoc; [exact Hu |]. cbn [map id set_id].
    intros Hin. apply in_map_iff in Hin as (r & Hr & Hin).
    apply id_below_next in Hin. lia.
  - unfold unique_ids.
    rewrite map_replace_first with (r := r); [exact Hu | exact Hf |].
    pose proof (merge_fields_frame r (new_row e ts)) as F. cbn in *. tauto.
Qed.

(** X9.  No call deletes or reorders rows, and none writes a column
    outside [name], [address], [rating], [review_count], [source_url] and
    [scraped_at]: all the other columns of the table read after the call
    as before, followed by those of the inserted rows. *)
Theorem save_keeps_other_columns :
  forall (es : list Electrician) (flag : bool) (s : St),
    exists rest,
      map frozen (committed (snd (save_to_database es flag s)))
      = map frozen (committed s) ++ rest.
Proof.
  intros es flag s.
  apply (save_invariant
           (fun t t' => exists rest, map frozen t' = map frozen t ++ rest)).
  - intros t. exists []. now rewrite app_nil_r.
  - intros t1 t2 t3 [r1 H1] [r2 H2]. exists (r1 ++ r2).
    now rewrite H2, H1, app_assoc.
  - clear. intros flag e n s.
    destruct (upsert_cases flag e n s) as [ts ck' Hf Ht | r ts ck' _ Hf Ht | |];
      cbn [snd txn]; try (exists []; now rewrite app_nil_r).
    + eexists. now rewrite map_app.
    + exists []. rewrite app_nil_r.
      apply map_replace_first with (r := r); [exact Hf |].
      pose proof (merge_fields_frame r (new_row e ts)) as F. cbv zeta in F.
      unfold frozen. cbn [id phone city state pincode business_name email
                           website services experience_years source verified
                           unique_key category service_description
                           smart_meter_score smart_meter_notes verified_by
                           verified_at set_scraped_at].
      destruct F as (-> & -> & -> & -> & -> & -> & -> & -> & -> & -> & -> & ->
                     & _ & -> & -> & -> & -> & -> & -> & ->).
      reflexivity.
Qed.

(** X10.  Without [update_existing] the stored rows are not touched at
    all: the table after the call is the table before it, followed by
    the inserted rows. *)
Theorem save_without_update_keeps_rows :
  forall (es : list Electrician) (s : St),
    exists rest,
      committed (snd (save_to_database es false s)) = committed s ++ rest.
Proof.
  intros es s.
  assert (Hp : forall es n s0,
             exists rest, txn (snd (process false es n s0)) = txn s0 ++ rest).
  { clear. induction es as [| e es IH]; intros n s0.
    - exists []. cbn. now rewrite app_nil_r.
    - cbn [Storage.process]. unfold bind.
      destruct (upsert_cases false e n s0)
        as [ts ck' Hf Ht | r ts ck' Hflag Hf Ht | r _ Hf | Ht _];
        try discriminate.
      + destruct (IH (n + 1)%Z
                     (mkSt (committed s0)
                        (txn s0 ++ [set_id (next_id (txn s0))
                                      (with_defaults (new_row e ts))]) ck'))
          as [rest H].
        cbn [txn] in H. eexists. rewrite H, <- app_assoc. reflexivity.
      + apply IH.
      + exists []. cbn. now rewrite app_nil_r. }
  rewrite save_to_database_run.
  destruct (Hp es 0%Z (mkSt (committed s) (committed s) (clock s))) as [rest H].
  destruct (process false es 0%Z _) as [[n | x] s1]; cbn [snd txn committed] in *.
  - now exists rest.
  - exists []. now rewrite app_nil_r.
Qed.

(** *** Batches in parts *)

Lemma ok_count_eq (a b : Z) (s : St) : a = b -> (Ok a, s) = (Ok b, s).
Proof. now intros ->. Qed.

Lemma upsert_shift (flag : bool) (e : Electrician) (n : Z) (s : St) :
  upsert flag e n s =
  match upsert flag e 0%Z s with
  | (Ok k, s') => (Ok (n + k)%Z, s')
  | (Raise x, s') => (Raise x, s')
  end.
Proof.
  destruct s as [cm tx ck].
  destruct (find (key_is (get_unique_key e)) tx) as [r |] eqn:Hf;
    destruct (timestamp e ck) as [[ts ck'] |] eqn:Ht.
  - destruct flag.
    + rewrite !upsert_update with (r := r) (ts := ts) (ck' := ck') by assumption.
      apply ok_count_eq; lia.
    + rewrite !upsert_skip with (r := r) by assumption. apply ok_count_eq; lia.
  - destruct flag.
    + now rewrite !upsert_raise by auto.
    + rewrite !upsert_skip with (r := r) by assumption. apply ok_count_eq; lia.
  - rewrite !upsert_insert with (ts := ts) (ck' := ck') by assumption.
    apply ok_count_eq; lia.
  - now rewrite !upsert_raise by auto.
Qed.

Lemma process_shift (flag : bool) (es : list Electrician) :
  forall (n : Z) (s : St),
    process flag es n s =
    match process flag es 0%Z s with
    | (Ok k, s') => (Ok (n + k)%Z, s')
    | (Raise x, s') => (Raise x, s')
    end.
Proof.
  induction es as [| e es IH]; intros n s.
  - cbn [Storage.process]. unfold ret. apply ok_count_eq; lia.
  - cbn [Storage.process]. unfold bind.
    rewrite (upsert_shift flag e n s).
    destruct (upsert flag e 0%Z s) as [[k | x] s1]; [| reflexivity].
    rewrite (IH (n + k)%Z), (IH k).
    destruct (process flag es 0%Z s1) as [[k' | x] s2]; [| reflexivity].
    apply ok_count_eq; lia.
Qed.

(** The loop does not read what is committed. *)
Lemma upsert_committed_irrelevant (flag : bool) (e : Electrician) (n : Z)
      (cm cm' tx : table) (ck : nat) :
  upsert flag e n (mkSt cm' tx ck) =
  let '(res, s') := upsert flag e n (mkSt cm tx ck) in
  (res, mkSt cm' (txn s') (clock s')).
Proof.
  destruct (find (key_is (get_unique_key e)) tx) as [r |] eqn:Hf;
    destruct (timestamp e ck) as [[ts ck'] |] eqn:Ht.
  - destruct flag.
    + now rewrite !upsert_update with (r := r) (ts := ts) (ck' := ck')
        by assumption.
    + now rewrite !upsert_skip with (r := r) by assumption.
  - destruct flag.
    + now rewrite !upsert_raise by auto.
    + now rewrite !upsert_skip with (r := r) by assumption.
  - now rewrite !upsert_insert with (ts := ts) (ck' := ck') by assumption.
  - now rewrite !upsert_raise by auto.
Qed.

Lemma process_committed_irrelevant (flag : bool) (es : list Electrician) :
  forall (n : Z) (cm cm' tx : table) (ck : nat),
    process flag es n (mkSt cm' tx ck) =
    let '(res, s') := process flag es n (mkSt cm tx ck) in
    (res, mkSt cm' (txn s') (clock s')).
Proof.
  induction es as [| e es IH]; intros n cm cm' tx ck; [reflexivity |].
  cbn [Storage.process]. unfold bind.
  rewrite (upsert_committed_irrelevant flag e n cm cm' tx ck).
  destruct (upsert flag e n (mkSt cm tx ck)) as [[k | x] [cm1 tx1 ck1]];
    [| reflexivity].
  cbn [txn clock]. apply IH.
Qed.

(** What the call does, told by the loop run on the committed table. *)
Lemma save_by_process (es : list Electrician) (flag : bool) (s : St) :
  save_to_database es flag s =
  match process flag es 0%Z (mkSt [] (committed s) (clock s)) with
  | (Ok n, s') => (Ok n, mkSt (txn s') (txn s') (clock s'))
  | (Raise e, s') => (Raise e, mkSt (committed s) (committed s) (clock s'))
  end.
Proof.
  rewrite save_to_database_run.
  rewrite (process_committed_irrelevant flag es 0%Z [] (committed s)).
  destruct (process flag es 0%Z (mkSt [] (committed s) (clock s)))
    as [[n | x] s1]; reflexivity.
Qed.

(** X11.  A batch saved in two calls, one part after the other, gives
    the database and the clock of the batch saved in one call, and the
    two counts add up to its count. *)
Theorem save_in_two_parts :
  forall (es1 es2 : list Electrician) (flag : bool) (s s1 s2 : St) (n1 n2 : Z),
    save_to_database es1 flag s = (Ok n1, s1) ->
    save_to_database es2 flag s1 = (Ok n2, s2) ->
    save_to_database (es1 ++ es2) flag s = (Ok (n1 + n2)%Z, s2).
Proof.
  intros es1 es2 flag s s1 s2 n1 n2 H1 H2.
  rewrite save_by_process in *. rewrite process_app.
  destruct (process flag es1 0%Z _) as [[k1 | x1] [cm1 tx1 ck1]];
    [| discriminate].
  inversion H1; subst n1 s1. clear H1. cbn [committed txn clock] in *.
  rewrite process_shift.
  rewrite (process_committed_irrelevant flag es2 0%Z [] cm1).
  destruct (process flag es2 0%Z (mkSt [] tx1 ck1)) as [[k2 | x2] t2];
    [| discriminate].
  inversion H2; subst. reflexivity.
Qed.

(** X12.  One call is atomic where two are not.  When the first part
    of a batch saves and the second raises, the two calls leave the rows
    of the first part in the database; the batch saved in one call raises
    the same exception and leaves the database as it was before. *)
Theorem save_in_one_call_is_atomic :
  forall (es1 es2 : list Electrician) (flag : bool) (s s1 s2 : St)
         (n1 : Z) (x : exn),
    save_to_database es1 flag s = (Ok n1, s1) ->
    save_to_database es2 flag s1 = (Raise x, s2) ->
    committed s2 = committed s1 /\
    exists s',
      save_to_database (es1 ++ es2) flag s = (Raise x, s') /\
      committed s' = committed s.
Proof.
  intros es1 es2 flag s s1 s2 n1 x H1 H2.
  rewrite save_by_process in *. rewrite process_app.
  destruct (process flag es1 0%Z _) as [[k1 | x1] [cm1 tx1 ck1]];
    [| discriminate].
  inversion H1; subst n1 s1. clear H1. cbn [committed txn clock] in *.
  rewrite process_shift.
  rewrite (process_committed_irrelevant flag es2 0%Z [] cm1).
  destruct (process flag es2 0%Z (mkSt [] tx1 ck1)) as [[k2 | x2] t2];
    [discriminate |].
  inversion H2; subst. split; [reflexivity |].
  eexists. split; reflexivity.
Qed.

(** *** What a call stores, and when it raises *)

Lemma key_in_replace (k k0 : str) (r r' : ElectricianDB) (t : table) :
  find (key_is k0) t = Some r ->
  unique_key r' = unique_key r ->
  key_in k (replace_first k0 r' t) = key_in k t.
Proof.
  intros Hf Hk. unfold key_in.
  induction t as [| a t IH]; simpl in *; [discriminate |].
  destruct (key_is k0 a).
  - inversion Hf; subst a. simpl. unfold key_is. now rewrite Hk.
  - simpl. now rewrite IH.
Qed.

(** A key the table has, it has after one more turn of the loop; and a
    turn that ends normally leaves the candidate's key in the table. *)
Lemma upsert_keys (flag : bool) (e : Electrician) (n : Z) (s : St) :
  (forall k, key_in k (txn s) = true ->
             key_in k (txn (snd (upsert flag e n s))) = true) /\
  (forall n', fst (upsert flag e n s) = Ok n' ->
              key_in (get_unique_key e) (txn (snd (upsert flag e n s))) = true).
Proof.
  destruct (upsert_cases flag e n s)
    as [ts ck' Hf Ht | r ts ck' Hflag Hf Ht | r Hflag Hf | Ht Hc];
    cbn [fst snd txn].
  - split.
    + intros k Hk. unfold key_in in *. rewrite existsb_app, Hk. reflexivity.
    + intros _ _. unfold key_in. rewrite existsb_app. cbn [existsb].
      rewrite key_is_new_row. now rewrite orb_true_r.
  - assert (Hk : unique_key (set_scraped_at (clock_reading ck')
                               (merge_fields r (new_row e ts))) = unique_key r).
    { pose proof (merge_fields_frame r (new_row e ts)) as F. cbn in *. tauto. }
    split.
    + intros k H. now rewrite key_in_replace with (r := r).
    + intros _ _. rewrite key_in_replace with (r := r) by assumption.
      now rewrite key_in_find, Hf.
  - split; [auto |]. intros _ _. now rewrite key_in_find, Hf.
  - split; [auto | discriminate].
Qed.

Lemma process_keys (flag : bool) (es : list Electrician) :
  forall (n : Z) (s : St),
    (forall k, key_in k (txn s) = true ->
               key_in k (txn (snd (process flag es n s))) = true) /\
    (forall n', fst (process flag es n s) = Ok n' ->
                forall e, In e es ->
                  key_in (get_unique_key e)
                         (txn (snd (process flag es n s))) = true).
Proof.
  induction es as [| e es IH]; intros n s.
  - split; [auto | intros _ _ e []].
  - cbn [Storage.process]. unfold bind.
    destruct (upsert_keys flag e n s) as [Hmono Hnew].
    destruct (upsert flag e n s) as [[k | x] s1]; cbn [fst snd] in *.
    + destruct (IH k s1) as [Hmono' Hall]. split.
      * auto.
      * intros n' Hok e' [<- | Hin]; [| eauto].
        apply Hmono'. exact (Hnew k eq_refl).
    + split; [exact Hmono | discriminate].
Qed.

(** X13.  After a call that returns, each candidate of the batch is in
    the database: a row carries its identity key. *)
Theorem saved_candidates_are_stored :
  forall (es : list Electrician) (flag : bool) (s s' : St) (n : Z),
    save_to_database es flag s = (Ok n, s') ->
    forall e, In e es -> key_in (get_unique_key e) (committed s') = true.
Proof.
  intros es flag s s' n H e He.
  rewrite save_to_database_run in H.
  destruct (process_keys flag es 0%Z
              (mkSt (committed s) (committed s) (clock s))) as [_ Hall].
  destruct (process flag es 0%Z _) as [[k | x] s1]; [| discriminate].
  inversion H; subst. cbn [committed]. exact (Hall _ eq_refl e He).
Qed.

(** ... and no key is lost, even by a call that raises. *)
Lemma stored_keys_stay (es : list Electrician) (flag : bool) (s : St) (k : str) :
  key_in k (committed s) = true ->
  key_in k (committed (snd (save_to_database es flag s))) = true.
Proof.
  revert k.
  apply (save_invariant
           (fun t t' => forall k, key_in k t = true -> key_in k t' = true));
    [auto | auto |].
  intros fl e n s0. apply upsert_keys.
Qed.

Lemma unreadable_timestamp (e : Electrician) (c : nat) :
  readable e = false -> timestamp e c = None.
Proof.
  unfold Storage.readable, Storage.timestamp.
  destruct (Models.scraped_at e) as [| a iso]; [discriminate |].
  now destruct (fromisoformat (a :: iso)).
Qed.

Lemma process_readable (flag : bool) (es : list Electrician) (n : Z) (s : St) :
  Forall (fun e => readable e = true) es ->
  exists n' s', process flag es n s = (Ok n', s').
Proof.
  intros H.
  destruct (process_count fromisoformat json_dumps clock_reading flag n s H)
    as (s' & Hp & _).
  eauto.
Qed.

(** X14.  With [update_existing], the first candidate of a batch whose
    timestamp [fromisoformat] refuses makes the call raise the
    [ValueError] for that timestamp; the database is left as it was,
    whatever the candidates before it were. *)
Theorem first_unreadable_timestamp_raises :
  forall (good rest : list Electrician) (bad : Electrician) (s : St),
    Forall (fun e => readable e = true) good ->
    readable bad = false ->
    exists s',
      save_to_database (good ++ bad :: rest) true s
        = (Raise (ValueError (Models.scraped_at bad)), s') /\
      committed s' = committed s.
Proof.
  intros good rest bad s Hgood Hbad.
  rewrite save_to_database_run, process_app.
  destruct (process_readable true 0%Z
              (mkSt (committed s) (committed s) (clock s)) Hgood)
    as (n1 & [cm1 tx1 ck1] & ->).
  cbn [Storage.process]. unfold bind.
  rewrite upsert_raise by (auto using unreadable_timestamp).
  eexists. split; reflexivity.
Qed.

(** X15.  Without [update_existing], a batch whose keys the database
    all has changes nothing and reads nothing: the call returns 0, the
    table and the clock are as before, and no timestamp of the batch is
    looked at. *)
Theorem save_without_update_of_known_keys :
  forall (es : list Electrician) (s : St),
    forallb (fun e => key_in (get_unique_key e) (committed s)) es = true ->
    save_to_database es false s
      = (Ok 0%Z, mkSt (committed s) (committed s) (clock s)).
Proof.
  intros es s H.
  rewrite save_to_database_run.
  assert (Hp : forall s0, txn s0 = committed s ->
                          process false es 0%Z s0 = (Ok 0%Z, s0)).
  { induction es as [| e es IH]; intros s0 E; [reflexivity |].
    cbn [forallb] in H. apply andb_prop in H as [He Hes].
    cbn [Storage.process]. unfold bind.
    rewrite key_in_find, <- E in He.
    destruct (find (key_is (get_unique_key e)) (txn s0)) as [r |] eqn:Hf;
      [| discriminate].
    rewrite upsert_skip with (r := r) by assumption. now apply IH. }
  now rewrite Hp.
Qed.

(** *** Reading back *)

Variable json_loads : str -> list str.
Variable isoformat : datetime -> str.

Local Abbreviation to_electrician := (Table.to_electrician json_loads isoformat).
Local Abbreviation load_from_database :=
  (Table.load_from_database json_loads isoformat).
Local Abbreviation key_consistent := (Table.key_consistent json_loads isoformat).

Lemma Forall_replace_first (P : ElectricianDB -> Prop) (k : str)
      (r' : ElectricianDB) (t : table) :
  Forall P t -> P r' -> Forall P (replace_first k r' t).
Proof.
  intros Ht Hr. induction Ht as [| a t Ha Ht IH]; simpl; [constructor |].
  destruct (key_is k a); constructor; auto.
Qed.

Lemma find_some_in (k : str) (t : table) (r : ElectricianDB) :
  find (key_is k) t = Some r -> In r t /\ unique_key r = Some k.
Proof.
  intros H. apply find_some in H as [Hin Hk]. split; [exact Hin |].
  unfold key_is in Hk. destruct (unique_key r) as [k' |]; [| discriminate].
  apply str_eqb_eq in Hk. now subst.
Qed.

(** X16.  [save_to_database] keeps the stored keys in step with the
    stored phone, city and state: if the [unique_key] of every row is the
    key of the candidate the row reads back as, the same holds after the
    call. *)
Theorem save_keeps_keys_consistent :
  forall (es : list Electrician) (flag : bool) (s : St),
    Forall key_consistent (committed s) ->
    Forall key_consistent (committed (snd (save_to_database es flag s))).
Proof.
  intros es flag s.
  apply (save_invariant
           (fun t t' => Forall key_consistent t -> Forall key_consistent t'));
    [tauto | tauto |].
  clear. intros flag e n s Hall.
  destruct (upsert_cases flag e n s) as [ts ck' Hf Ht | r ts ck' _ Hf Ht | |];
    cbn [snd txn]; try exact Hall.
  - apply Forall_app. split; [exact Hall |].
    constructor; [| constructor]. reflexivity.
  - apply Forall_replace_first; [exact Hall |].
    destruct (find_some_in _ _ Hf) as [Hin _].
    rewrite Forall_forall in Hall. specialize (Hall r Hin).
    pose proof (merge_fields_frame r (new_row e ts)) as F. cbv zeta in F.
    destruct F as (_ & F1 & F2 & F3 & _ & _ & _ & _ & _ & _ & _ & _ & _ & F4 & _).
    unfold Table.key_consistent, get_unique_key in *.
    cbn [Table.to_electrician Models.phone Models.city Models.state
         phone city state unique_key set_scraped_at] in *.
    now rewrite F1, F2, F3, F4.
Qed.

(** X17.  What is saved can be loaded: on a database whose keys are in
    step, after a call that returns, [load_from_database] holds for each
    candidate of the batch an entry equal to it in the sense of
    [Electrician.__eq__]. *)
Theorem saved_candidates_are_loaded :
  forall (es : list Electrician) (flag : bool) (s s' : St) (n : Z),
    Forall key_consistent (committed s) ->
    save_to_database es flag s = (Ok n, s') ->
    forall e, In e es ->
      exists e', In e' (load_from_database s') /\ electrician_eq e' e = true.
Proof.
  intros es flag s s' n Hall Hs e He.
  pose proof (@save_keeps_keys_consistent es flag s Hall) as Hall'.
  rewrite Hs in Hall'. cbn [snd] in Hall'.
  assert (Hk : key_in (get_unique_key e) (committed s') = true).
  { pose proof (process_keys flag es 0%Z
                  (mkSt (committed s) (committed s) (clock s))) as [_ Hp].
    rewrite save_to_database_run in Hs.
    destruct (process flag es 0%Z _) as [[k | x] s1]; [| discriminate].
    inversion Hs; subst. cbn [committed]. exact (Hp _ eq_refl e He). }
  rewrite key_in_find in Hk.
  destruct (find (key_is (get_unique_key e)) (committed s')) as [r |] eqn:Hf;
    [| discriminate].
  destruct (find_some_in _ _ Hf) as [Hin Hkey].
  rewrite Forall_forall in Hall'. specialize (Hall' r Hin).
  exists (to_electrician r). split.
  - unfold Table.load_from_database. now apply in_map.
  - unfold electrician_eq. apply str_eqb_eq.
    unfold Table.key_consistent in Hall'. congruence.
Qed.

(** X18.  A row just inserted reads back as the candidate it was made
    from, field for field, where [json.loads] undoes [json.dumps] on the
    candidate's services and [isoformat] writes the row's timestamp as the
    candidate has it. *)
Theorem inserted_row_reads_back :
  forall (e : Electrician) (ts : datetime) (i : Z),
    (Models.services e <> [] ->
     json_dumps (Models.services e) <> [] /\
     json_loads (json_dumps (Models.services e)) = Models.services e) ->
    isoformat ts = Models.scraped_at e ->
    to_electrician (set_id i (with_defaults (new_row e ts))) = e.
Proof.
  intros e ts i Hjson Hiso.
  destruct e as [nm ph ci st ad pin bn em web sv ex ra rc so su sa ve].
  cbn [Models.services Models.scraped_at] in *.
  unfold Table.to_electrician, Storage.new_row, with_defaults.
  cbn [smart_meter_score set_smart_meter_score set_id name phone city state
       address pincode business_name email website services experience_years
       rating review_count source source_url verified scraped_at
       Models.name Models.phone Models.city Models.state Models.address
       Models.pincode Models.business_name Models.email Models.website
       Models.services Models.experience_years Models.rating
       Models.review_count Models.source Models.source_url Models.verified
       Models.scraped_at].
  rewrite Hiso. f_equal.
  destruct sv as [| x sv]; [reflexivity |].
  destruct Hjson as [Hne Hrt]; [discriminate |].
  cbn [truthy_opt_str truthy_str].
  destruct (json_dumps (x :: sv)); [contradiction | exact Hrt].
Qed.

End StorageMore.

(** ** Dictionaries, and the deduplication of the callers *)

Lemma str_eqb_false (a b : str) : str_eqb a b = false <-> a <> b.
Proof.
  unfold str_eqb. destruct (str_eq_dec a b); split; congruence.
Qed.

Lemma dict_get_set {A : Type} (k k' : str) (v : A) (d : dict A) :
  dict_get k' (dict_set k v d) = if str_eqb k k' then Some v else dict_get k' d.
Proof.
  induction d as [| [k0 v0] d IH]; simpl.
  - reflexivity.
  - destruct (str_eqb k0 k) eqn:E0; simpl.
    + apply str_eqb_eq in E0. subst k0. now destruct (str_eqb k k').
    + rewrite IH. destruct (str_eqb k0 k') eqn:E1; [| reflexivity].
      apply str_eqb_eq in E1. subst k0. apply str_eqb_false in E0.
      destruct (str_eqb k k') eqn:E2; [| reflexivity].
      apply str_eqb_eq in E2. congruence.
Qed.

Lemma dict_set_keys {A : Type} (k : str) (v : A) (d : dict A) :
  map fst (dict_set k v d)
  = if in_dec str_eq_dec k (map fst d) then map fst d else map fst d ++ [k].
Proof.
  induction d as [| [k0 v0] d IH]; simpl; [reflexivity |].
  destruct (str_eqb k0 k) eqn:E0; simpl.
  - apply str_eqb_eq in E0. subst k0.
    destruct (str_eq_dec k k); [reflexivity | contradiction].
  - apply str_eqb_false in E0. rewrite IH.
    destruct (str_eq_dec k0 k); [contradiction |].
    now destruct (in_dec str_eq_dec k (map fst d)).
Qed.

Lemma dict_get_none {A : Type} (k : str) (d : dict A) :
  ~ In k (map fst d) -> dict_get k d = None.
Proof.
  induction d as [| [k0 v0] d IH]; simpl; [reflexivity |].
  intros H. destruct (str_eqb k0 k) eqn:E.
  - apply str_eqb_eq in E. tauto.
  - apply IH. tauto.
Qed.

(** Two dictionaries of the same keys, in the same order, and of the
    same values are one. *)
Lemma dict_ext {A : Type} (d1 d2 : dict A) :
  NoDup (map fst d1) ->
  map fst d1 = map fst d2 ->
  (forall k, dict_get k d1 = dict_get k d2) ->
  d1 = d2.
Proof.
  revert d2. induction d1 as [| [k1 v1] d1 IH]; intros [| [k2 v2] d2] Hnd Hk Hg;
    try discriminate; [reflexivity |].
  simpl in Hk. inversion Hk; subst k2. inversion Hnd as [| ? ? Hnot Hnd']; subst.
  pose proof (Hg k1) as Hv. cbn [dict_get] in Hv. rewrite str_eqb_refl in Hv.
  inversion Hv; subst v2. f_equal.
  apply IH; [exact Hnd' | assumption |].
  intros k. specialize (Hg k). cbn [dict_get] in Hg.
  destruct (str_eqb k1 k) eqn:E; [| exact Hg].
  apply str_eqb_eq in E. subst k.
  rewrite !dict_get_none; congruence.
Qed.

Lemma dict_get_in {A : Type} (k : str) (d : dict A) (v : A) :
  dict_get k d = Some v -> In (k, v) d.
Proof.
  induction d as [| [k0 v0] d IH]; simpl; [discriminate |].
  destruct (str_eqb k0 k) eqn:E.
  - apply str_eqb_eq in E. subst k0. intros H; inversion H. now left.
  - intros H. right. now apply IH.
Qed.

Lemma in_dict_get {A : Type} (k : str) (d : dict A) (v : A) :
  NoDup (map fst d) -> In (k, v) d -> dict_get k d = Some v.
Proof.
  induction d as [| [k0 v0] d IH]; simpl; [tauto |].
  intros Hnd [H | H].
  - inversion H; subst. now rewrite str_eqb_refl.
  - inversion Hnd as [| ? ? Hnot Hnd']; subst.
    destruct (str_eqb k0 k) eqn:E.
    + apply str_eqb_eq in E. subst k0. exfalso. apply Hnot.
      apply in_map_iff. now exists (k, v).
    + now apply IH.
Qed.

Section DictBy.

Variable A : Type.
Variable key : A -> str.

Local Abbreviation step := (fun (d : dict A) (x : A) => dict_set (key x) x d).
Let add_key := fun (ks : list str) (k : str) =>
                 if in_dec str_eq_dec k ks then ks else ks ++ [k].

Lemma fold_step_keys (l : list A) :
  forall d, map fst (fold_left step l d)
            = fold_left add_key (map key l) (map fst d).
Proof.
  induction l as [| x l IH]; intros d; simpl; [reflexivity |].
  rewrite IH. now rewrite dict_set_keys.
Qed.

Lemma last_with_snoc (k : str) (l : list A) (x : A) :
  last_with key k (l ++ [x])
  = if str_eqb (key x) k then Some x else last_with key k l.
Proof.
  unfold last_with. rewrite rev_app_distr. reflexivity.
Qed.

Lemma fold_step_get (k : str) (l : list A) :
  forall d, dict_get k (fold_left step l d)
            = match last_with key k l with
              | Some x => Some x
              | None => dict_get k d
              end.
Proof.
  induction l as [| x l IH] using rev_ind; intros d; [reflexivity |].
  rewrite fold_left_app, last_with_snoc. cbn [fold_left].
  rewrite dict_get_set. destruct (str_eqb (key x) k); [reflexivity | apply IH].
Qed.

Lemma add_key_NoDup (ks' : list str) :
  forall ks, NoDup ks -> NoDup (fold_left add_key ks' ks).
Proof.
  induction ks' as [| k ks' IH]; intros ks H; simpl; [exact H |].
  apply IH. unfold add_key.
  destruct (in_dec str_eq_dec k ks); [exact H | now apply NoDup_snoc].
Qed.

Lemma add_key_in (ks' : list str) :
  forall ks k, In k (fold_left add_key ks' ks) <-> In k ks \/ In k ks'.
Proof.
  induction ks' as [| k0 ks' IH]; intros ks k; simpl; [tauto |].
  rewrite IH. unfold add_key.
  destruct (in_dec str_eq_dec k0 ks) as [Hin | Hnot].
  - split; [tauto |]. intros [H | [<- | H]]; tauto.
  - rewrite in_app_iff. simpl. tauto.
Qed.

Lemma add_key_known (ks' : list str) :
  forall ks, incl ks' ks -> fold_left add_key ks' ks = ks.
Proof.
  induction ks' as [| k ks' IH]; intros ks H; simpl; [reflexivity |].
  unfold add_key at 2.
  destruct (in_dec str_eq_dec k ks) as [Hin | Hnot].
  - apply IH. intros x Hx. apply H. now right.
  - exfalso. apply Hnot, H. now left.
Qed.

Lemma add_key_fresh (ks : list str) :
  NoDup ks -> fold_left add_key ks [] = ks.
Proof.
  intros H.
  assert (G : forall ks' acc, NoDup (acc ++ ks') ->
                              fold_left add_key ks' acc = acc ++ ks').
  { induction ks' as [| k ks' IH]; intros acc Hnd; simpl.
    - now rewrite app_nil_r.
    - unfold add_key at 2.
      destruct (in_dec str_eq_dec k acc) as [Hin | Hnot].
      + exfalso. apply NoDup_remove_2 in Hnd. apply Hnd.
        apply in_or_app. now left.
      + rewrite IH; rewrite <- app_assoc; [reflexivity | exact Hnd]. }
  now apply (G ks []).
Qed.

Lemma dict_by_keys_NoDup (l : list A) : NoDup (map fst (dict_by key l)).
Proof.
  unfold dict_by. rewrite (fold_step_keys l []).
  apply add_key_NoDup. constructor.
Qed.

Lemma dict_by_keys_in (l : list A) (k : str) :
  In k (map fst (dict_by key l)) <-> In k (map key l).
Proof.
  unfold dict_by. rewrite (fold_step_keys l []), add_key_in. simpl. tauto.
Qed.

Lemma dict_by_get (l : list A) (k : str) :
  dict_get k (dict_by key l) = last_with key k l.
Proof.
  unfold dict_by. rewrite (fold_step_get k l []).
  now destruct (last_with key k l).
Qed.

Lemma last_with_key (k : str) (l : list A) (x : A) :
  last_with key k l = Some x -> In x l /\ key x = k.
Proof.
  unfold last_with. intros H. apply find_some in H as [Hin Hk].
  split; [now apply in_rev | now apply str_eqb_eq].
Qed.

Lemma last_with_none (k : str) (l : list A) :
  last_with key k l = None -> ~ In k (map key l).
Proof.
  unfold last_with. intros H Hin. apply in_map_iff in Hin as (x & Hx & Hin).
  apply in_rev in Hin. pose proof (find_none _ _ H x Hin) as Hf. cbn in Hf.
  subst k. now rewrite str_eqb_refl in Hf.
Qed.

(** Each entry of the dictionary sits under its own key. *)
Lemma dict_by_keyed (l : list A) :
  map key (unique_by key l) = map fst (dict_by key l).
Proof.
  unfold unique_by, dict_values. rewrite map_map. apply map_ext_in.
  intros [k v] Hin. cbn.
  apply in_dict_get in Hin; [| apply dict_by_keys_NoDup].
  rewrite dict_by_get in Hin. now apply last_with_key in Hin.
Qed.

(** X19.  The deduplication of the callers keeps one element a key, the
    last of that key in the list: the result has no two elements of one
    key, holds elements of the list only, and for every element of the
    list holds the last element that has its key. *)
Theorem unique_by_keeps_last :
  forall l : list A,
    NoDup (map key (unique_by key l)) /\
    (forall y, In y (unique_by key l) ->
               In y l /\ last_with key (key y) l = Some y) /\
    (forall x, In x l ->
               exists y, In y (unique_by key l) /\ key y = key x /\
                         last_with key (key x) l = Some y).
Proof.
  intros l. split; [| split].
  - rewrite dict_by_keyed. apply dict_by_keys_NoDup.
  - intros y Hy. unfold unique_by, dict_values in Hy.
    apply in_map_iff in Hy as ([k v] & <- & Hin). cbn.
    apply in_dict_get in Hin; [| apply dict_by_keys_NoDup].
    rewrite dict_by_get in Hin.
    destruct (last_with_key _ _ Hin) as [Hl Hk]. subst k. auto.
  - intros x Hx.
    destruct (last_with key (key x) l) as [y |] eqn:E.
    + exists y. destruct (last_with_key _ _ E) as [_ Hk].
      split; [| auto].
      rewrite <- dict_by_get in E. apply dict_get_in in E.
      unfold unique_by, dict_values. apply in_map_iff. now exists (key x, y).
    + exfalso. apply last_with_none in E. apply E. now apply in_map.
Qed.

End DictBy.

Lemma last_with_app {A : Type} (key : A -> str) (k : str) (a b : list A) :
  last_with key k (a ++ b)
  = match last_with key k b with
    | Some x => Some x
    | None => last_with key k a
    end.
Proof.
  unfold last_with. rewrite rev_app_distr.
  induction (rev b) as [| x l IH]; simpl; [reflexivity |].
  now destruct (str_eqb (key x) k).
Qed.

(** Looking a key up among the values of a dictionary built by
    [dict_by] is looking it up in the dictionary. *)
Lemma last_with_values {A : Type} (key : A -> str) (k : str) (l : list A) :
  last_with key k (unique_by key l) = dict_get k (dict_by key l).
Proof.
  destruct (last_with key k (unique_by key l)) as [v |] eqn:E.
  - destruct (last_with_key key _ _ E) as [Hin Hk].
    unfold unique_by, dict_values in Hin.
    apply in_map_iff in Hin as ([k' v'] & Hv & Hin). cbn in Hv. subst v'.
    pose proof (in_dict_get k' (dict_by key l) v
                  (dict_by_keys_NoDup key l) Hin) as Hg.
    pose proof Hg as Hl. rewrite dict_by_get in Hl.
    apply last_with_key in Hl as [_ Hk']. congruence.
  - apply last_with_none in E. rewrite dict_by_keyed in E.
    symmetry. now apply dict_get_none.
Qed.

(** X20.  Saving the same electricians to a JSON file twice leaves the
    file as the first call wrote it: merging [new_data] into the
    [unique_data] they have produced gives that [unique_data] again. *)
Theorem resave_json_unchanged :
  forall existing_data new_data : list Electrician,
    unique_data (unique_data existing_data new_data) new_data
    = unique_data existing_data new_data.
Proof.
  intros ex new. unfold unique_data. cbv zeta.
  set (key := Models.phone).
  set (l := ex ++ new).
  unfold unique_by at 1 3. unfold dict_values. f_equal.
  apply dict_ext.
  - apply dict_by_keys_NoDup.
  - unfold dict_by at 1. rewrite fold_left_app.
    rewrite (fold_step_keys key new), (fold_step_keys key (unique_by key l) []).
    rewrite dict_by_keyed.
    rewrite add_key_fresh by apply dict_by_keys_NoDup.
    apply add_key_known.
    intros k Hk. apply dict_by_keys_in. unfold l. rewrite map_app.
    apply in_or_app. now right.
  - intros k. rewrite !dict_by_get. unfold l.
    rewrite !last_with_app. fold l.
    destruct (last_with key k new) eqn:E; [reflexivity |].
    rewrite last_with_values, dict_by_get. unfold l.
    now rewrite last_with_app, E.
Qed.

(** ... and of two entries of one phone the later wins: every phone of
    [new_data] is in the file with the last record [new_data] has for
    it. *)
Lemma new_json_data_wins (existing_data new_data : list Electrician)
      (x : Electrician) :
  last_with Models.phone (Models.phone x) new_data = Some x ->
  In x (unique_data existing_data new_data).
Proof.
  intros H. unfold unique_data. cbv zeta.
  assert (G : dict_get (Models.phone x)
                (dict_by Models.phone (existing_data ++ new_data)) = Some x)
    by now rewrite dict_by_get, last_with_app, H.
  apply dict_get_in in G. unfold unique_by, dict_values.
  apply in_map_iff. now exists (Models.phone x, x).
Qed.

Lemma new_keys_same_keys (t : Storage.table) (es es' : list Electrician) :
  (forall k, In k (map get_unique_key es) <-> In k (map get_unique_key es')) ->
  length (Storage.new_keys t es) = length (Storage.new_keys t es').
Proof.
  intros H. unfold Storage.new_keys.
  apply Permutation_length, NoDup_Permutation; try apply NoDup_nodup.
  intros k. rewrite !nodup_In, !filter_In, H. tauto.
Qed.

Section Callers.
Import Storage.

Variable fromisoformat : str -> option datetime.
Variable json_dumps : list str -> str.
Variable clock_reading : nat -> datetime.

Local Abbreviation readable := (Storage.readable fromisoformat).
Local Abbreviation save_to_database :=
  (Storage.save_to_database fromisoformat json_dumps clock_reading).

(** X21.  The callers deduplicate before they save; the number of new
    records they are told is the one the whole list would have given,
    and the table gains as many rows either way. *)
Theorem deduplicated_batch_same_count :
  forall (es : list Electrician) (flag : bool) (s : St),
    Forall (fun e => readable e = true) es ->
    exists n s1 s2,
      save_to_database es flag s = (Ok n, s1) /\
      save_to_database (unique es) flag s = (Ok n, s2) /\
      length (committed s2) = length (committed s1).
Proof.
  intros es flag s Hall.
  destruct (unique_by_keeps_last get_unique_key es) as (_ & Hsub & Hcov).
  assert (Hall' : Forall (fun e => readable e = true) (unique es)).
  { rewrite Forall_forall in *. intros y Hy. apply Hall. now apply Hsub. }
  assert (Hk : forall k, In k (map get_unique_key (unique es))
                         <-> In k (map get_unique_key es)).
  { intros k. rewrite !in_map_iff. split.
    - intros (y & <- & Hy). exists y. split; [reflexivity | now apply Hsub].
    - intros (x & <- & Hx). destruct (Hcov x Hx) as (y & Hy & Hyk & _).
      now exists y. }
  pose proof (new_keys_same_keys (committed s) (unique es) es Hk) as Hlen.
  rewrite !(save_to_database_run fromisoformat json_dumps clock_reading).
  destruct (process_count fromisoformat json_dumps clock_reading flag 0%Z
              (mkSt (committed s) (committed s) (clock s)) Hall)
    as (t1 & -> & Hl1).
  destruct (process_count fromisoformat json_dumps clock_reading flag 0%Z
              (mkSt (committed s) (committed s) (clock s)) Hall')
    as (t2 & -> & Hl2).
  cbn [txn] in *.
  eexists. eexists. eexists. split; [reflexivity |].
  split; [now rewrite Hlen |]. cbn [committed]. lia.
Qed.

End Callers.

(* ================================================================== *)
(** * The further properties at work *)

Module MoreRuns.
Import Storage Scenario Scenario2.

Local Abbreviation save :=
  (Storage.save_to_database PyLib.fromisoformat PyLib.json_dumps
                            PyLib.clock_reading).
Local Abbreviation readable_ts := (Storage.readable PyLib.fromisoformat).
Local Abbreviation read_row :=
  (Table.to_electrician PyRead.json_loads PyRead.isoformat).
Local Abbreviation load :=
  (Table.load_from_database PyRead.json_loads PyRead.isoformat).
Local Abbreviation in_step :=
  (Table.key_consistent PyRead.json_loads PyRead.isoformat).


Lemma two_rows_keys_unique : unique_keys [patel_row; shah_row].
Proof.
  unfold unique_keys. cbn.
  constructor; [| constructor; [| constructor]]; cbn; intuition discriminate.
Defined.

Lemma save_keeps_keys_unique_witness :
  unique_keys (committed (database [patel_row; shah_row])) /\
  unique_keys
    (committed (snd (save [patel_renamed; mehta; mehta] true
                       (database [patel_row; shah_row])))).
Proof.
  split; [exact two_rows_keys_unique |].
  exact (save_keeps_keys_unique PyLib.fromisoformat PyLib.json_dumps
           PyLib.clock_reading [patel_renamed; mehta; mehta] true
           (database [patel_row; shah_row]) two_rows_keys_unique).
Defined.

Lemma two_rows_ids_unique : unique_ids [patel_row; shah_row].
Proof.
  unfold unique_ids. cbn.
  constructor; [| constructor; [| constructor]]; cbn; intuition discriminate.
Defined.

Lemma save_keeps_ids_unique_witness :
  unique_ids (committed (database [patel_row; shah_row])) /\
  unique_ids
    (committed (snd (save [patel_renamed; mehta; gupta] true
                       (database [patel_row; shah_row])))).
Proof.
  split; [exact two_rows_ids_unique |].
  exact (save_keeps_ids_unique PyLib.fromisoformat PyLib.json_dumps
           PyLib.clock_reading [patel_renamed; mehta; gupta] true
           (database [patel_row; shah_row]) two_rows_ids_unique).
Defined.

Lemma save_in_two_parts_witness :
  exists s1 s2,
    save [patel; shah] true (database []) = (Ok 2%Z, s1) /\
    save [patel_renamed; mehta] true s1 = (Ok 1%Z, s2) /\
    save ([patel; shah] ++ [patel_renamed; mehta]) true (database [])
      = (Ok (2 + 1)%Z, s2).
Proof.
  assert (H1 : save [patel; shah] true (database [])
               = (Ok 2%Z,
                  snd (save [patel; shah] true (database []))))
    by (vm_compute; reflexivity).
  assert (H2 : save [patel_renamed; mehta] true
                 (snd (save [patel; shah] true (database [])))
               = (Ok 1%Z,
                  snd (save [patel_renamed; mehta] true
                         (snd (save [patel; shah] true
                                 (database []))))))
    by (vm_compute; reflexivity).
  eexists. eexists. split; [exact H1 |]. split; [exact H2 |].
  exact (save_in_two_parts PyLib.fromisoformat PyLib.json_dumps
           PyLib.clock_reading [patel; shah] [patel_renamed; mehta] true
           (database []) H1 H2).
Defined.

Lemma save_in_one_call_is_atomic_witness :
  exists s1 s2,
    save [patel; shah] true (database []) = (Ok 2%Z, s1) /\
    save [mehta; undated] true s1
      = (Raise (ValueError (lit "yesterday")), s2) /\
    committed s2 = committed s1 /\
    exists s',
      save ([patel; shah] ++ [mehta; undated]) true (database [])
        = (Raise (ValueError (lit "yesterday")), s') /\
      committed s' = committed (database []).
Proof.
  assert (H1 : save [patel; shah] true (database [])
               = (Ok 2%Z,
                  snd (save [patel; shah] true (database []))))
    by (vm_compute; reflexivity).
  assert (H2 : save [mehta; undated] true
                 (snd (save [patel; shah] true (database [])))
               = (Raise (ValueError (lit "yesterday")),
                  snd (save [mehta; undated] true
                         (snd (save [patel; shah] true
                                 (database []))))))
    by (vm_compute; reflexivity).
  eexists. eexists. split; [exact H1 |]. split; [exact H2 |].
  exact (save_in_one_call_is_atomic PyLib.fromisoformat PyLib.json_dumps
           PyLib.clock_reading [patel; shah] [mehta; undated] true
           (database []) H1 H2).
Defined.

Lemma saved_candidates_are_stored_witness :
  exists s',
    save [patel; short_phone; shah] true (database [patel_row])
      = (Ok 2%Z, s') /\
    In short_phone [patel; short_phone; shah] /\
    key_in (get_unique_key short_phone) (committed s') = true.
Proof.
  assert (H : save [patel; short_phone; shah] true
                (database [patel_row])
              = (Ok 2%Z,
                 snd (save [patel; short_phone; shah] true
                        (database [patel_row]))))
    by (vm_compute; reflexivity).
  assert (Hin : In short_phone [patel; short_phone; shah])
    by (right; left; reflexivity).
  eexists. split; [exact H |]. split; [exact Hin |].
  exact (saved_candidates_are_stored PyLib.fromisoformat PyLib.json_dumps
           PyLib.clock_reading [patel; short_phone; shah] true
           (database [patel_row]) H short_phone Hin).
Defined.

Lemma first_unreadable_timestamp_raises_witness :
  Forall (fun e => readable_ts e = true) [patel; shah] /\
  readable_ts undated = false /\
  exists s',
    save ([patel; shah] ++ undated :: [mehta]) true
                     (database [patel_row])
      = (Raise (ValueError (Models.scraped_at undated)), s') /\
    committed s' = committed (database [patel_row]).
Proof.
  assert (H : Forall (fun e => readable_ts e = true) [patel; shah])
    by (repeat constructor).
  split; [exact H |]. split; [reflexivity |].
  exact (first_unreadable_timestamp_raises PyLib.fromisoformat PyLib.json_dumps
           PyLib.clock_reading [mehta] undated (database [patel_row])
           H eq_refl).
Defined.

Lemma save_without_update_of_known_keys_witness :
  forallb (fun e => key_in (get_unique_key e)
                           (committed (database [patel_row; shah_row])))
          [patel_renamed; shah; patel_again] = true /\
  save [patel_renamed; shah; patel_again] false
                   (database [patel_row; shah_row])
    = (Ok 0%Z, mkSt (committed (database [patel_row; shah_row]))
                    (committed (database [patel_row; shah_row]))
                    (clock (database [patel_row; shah_row]))).
Proof.
  split; [reflexivity |].
  exact (save_without_update_of_known_keys PyLib.fromisoformat PyLib.json_dumps
           PyLib.clock_reading [patel_renamed; shah; patel_again]
           (database [patel_row; shah_row]) eq_refl).
Defined.

Lemma two_rows_keys_consistent :
  Forall in_step (committed (database [patel_row; shah_row])).
Proof.
  repeat constructor.
Defined.

Lemma save_keeps_keys_consistent_witness :
  Forall in_step (committed (database [patel_row; shah_row])) /\
  Forall in_step
    (committed (snd (save [patel_renamed; gupta] true
                       (database [patel_row; shah_row])))).
Proof.
  split; [exact two_rows_keys_consistent |].
  exact (@save_keeps_keys_consistent PyLib.fromisoformat PyLib.json_dumps
           PyLib.clock_reading PyRead.json_loads PyRead.isoformat
           [patel_renamed; gupta] true (database [patel_row; shah_row])
           two_rows_keys_consistent).
Defined.

Lemma saved_candidates_are_loaded_witness :
  Forall in_step (committed (database [patel_row; shah_row])) /\
  exists s',
    save [patel_renamed; gupta] true
                     (database [patel_row; shah_row]) = (Ok 1%Z, s') /\
    In patel_renamed [patel_renamed; gupta] /\
    exists e', In e' (load s')
               /\ electrician_eq e' patel_renamed = true.
Proof.
  assert (H : save [patel_renamed; gupta] true
                (database [patel_row; shah_row])
              = (Ok 1%Z,
                 snd (save [patel_renamed; gupta] true
                        (database [patel_row; shah_row]))))
    by (vm_compute; reflexivity).
  assert (Hin : In patel_renamed [patel_renamed; gupta]) by (left; reflexivity).
  split; [exact two_rows_keys_consistent |].
  eexists. split; [exact H |]. split; [exact Hin |].
  exact (@saved_candidates_are_loaded PyLib.fromisoformat PyLib.json_dumps
           PyLib.clock_reading PyRead.json_loads PyRead.isoformat
           [patel_renamed; gupta] true (database [patel_row; shah_row])
           _ 1%Z two_rows_keys_consistent H patel_renamed Hin).
Defined.

Lemma inserted_row_reads_back_witness :
  (Models.services gupta <> [] ->
   PyLib.json_dumps (Models.services gupta) <> [] /\
   PyRead.json_loads (PyLib.json_dumps (Models.services gupta))
   = Models.services gupta) /\
  PyRead.isoformat gupta_time = Models.scraped_at gupta /\
  PyLib.fromisoformat (Models.scraped_at gupta) = Some gupta_time /\
  read_row
    (set_id 3 (with_defaults (Storage.new_row PyLib.json_dumps gupta gupta_time)))
  = gupta.
Proof.
  assert (H1 : Models.services gupta <> [] ->
               PyLib.json_dumps (Models.services gupta) <> [] /\
               PyRead.json_loads (PyLib.json_dumps (Models.services gupta))
               = Models.services gupta).
  { intros _. split; [discriminate | vm_compute; reflexivity]. }
  assert (H2 : PyRead.isoformat gupta_time = Models.scraped_at gupta)
    by (vm_compute; reflexivity).
  split; [exact H1 |]. split; [exact H2 |].
  split; [vm_compute; reflexivity |].
  exact (@inserted_row_reads_back PyLib.json_dumps PyRead.json_loads
           PyRead.isoformat gupta gupta_time 3%Z H1 H2).
Defined.

Lemma unique_by_keeps_last_witness :
  In patel [patel; shah; patel_again; patel_renamed] /\
  unique [patel; shah; patel_again; patel_renamed] = [patel_renamed; shah] /\
  exists y, In y (unique [patel; shah; patel_again; patel_renamed]) /\
            get_unique_key y = get_unique_key patel /\
            last_with get_unique_key (get_unique_key patel)
                      [patel; shah; patel_again; patel_renamed] = Some y.
Proof.
  assert (H : In patel [patel; shah; patel_again; patel_renamed])
    by (left; reflexivity).
  split; [exact H |]. split; [vm_compute; reflexivity |].
  exact (proj2 (proj2 (unique_by_keeps_last get_unique_key
                         [patel; shah; patel_again; patel_renamed])) patel H).
Defined.

Lemma deduplicated_batch_same_count_witness :
  Forall (fun e => readable_ts e = true)
         [patel; shah; patel_again; mehta; patel_renamed; mehta] /\
  exists n s1 s2,
    save [patel; shah; patel_again; mehta; patel_renamed; mehta]
                     true (database [shah_row]) = (Ok n, s1) /\
    save
      (unique [patel; shah; patel_again; mehta; patel_renamed; mehta])
      true (database [shah_row]) = (Ok n, s2) /\
    length (committed s2) = length (committed s1).
Proof.
  assert (H : Forall (fun e => readable_ts e = true)
                     [patel; shah; patel_again; mehta; patel_renamed; mehta])
    by (repeat constructor).
  split; [exact H |].
  exact (deduplicated_batch_same_count PyLib.fromisoformat PyLib.json_dumps
           PyLib.clock_reading true (database [shah_row]) H).
Defined.

End MoreRuns.
